(** * The habit-tracker service worker (service-worker.js)

    A shallow embedding of the worker's event handlers: the two serving
    strategies [cacheFirst] and [networkFirst], the fetch router, the install
    and activate steps and the push handler.  Asynchronous functions are
    written in a small monad threading the host's Cache Storage and a
    chronological trace of the host calls the worker makes; a rejected
    promise is an abrupt completion [Throw]. *)

From Stdlib Require Import String Ascii List ZArith Bool Lia.
From Stdlib Require Import Floats.PrimFloat.
Import ListNotations.

Local Open Scope string_scope.
Local Open Scope Z_scope.

(** ** Constants of the worker (lines 1-13) *)

Definition CACHE_VERSION : string := "v1".
Definition CACHE_NAME : string := "habit-tracker-" ++ CACHE_VERSION.

Definition STATIC_CACHE_URLS : list string :=
  [ "./index.html";
    "./manifest.json";
    "https://cdn.tailwindcss.com";
    "https://cdn.jsdelivr.net/npm/font-awesome@4.7.0/css/font-awesome.min.css";
    "https://cdn.jsdelivr.net/npm/chart.js@4.4.8/dist/chart.umd.min.js" ].

(** ** JavaScript strings *)

(** [s.startsWith(p)] *)
Definition startsWith (s p : string) : bool := String.prefix p s.

(** [s.includes(sub)]: [sub] occurs somewhere in [s]. *)
Fixpoint includes (s sub : string) : bool :=
  String.prefix sub s ||
  match s with
  | EmptyString => false
  | String _ rest => includes rest sub
  end.

(** ** Requests, responses and JavaScript values *)

Definition Headers := list (string * string).

(** [headers.get(name)]: the value, or [null] ([None]) when the header is
    not there.  Names are kept in lower case, as the host's Headers object
    does. *)
Fixpoint headers_get (h : Headers) (name : string) : option string :=
  match h with
  | [] => None
  | (n, v) :: rest => if String.eqb n name then Some v else headers_get rest name
  end.

Record Request := mkRequest {
  url : string;
  method : string;
  headers : Headers
}.

Record Response := mkResponse {
  status : Z;
  resp_headers : Headers;
  body : string
}.

(** [new Response(body, { status, headers })] *)
Definition new_Response (b : string) (st : Z) (h : Headers) : Response :=
  mkResponse st h b.

(** [response.clone()]: an independent copy with the same content. *)
Definition clone (r : Response) : Response := r.

(** Values the push handler manipulates: what [JSON.parse] produces, and
    [undefined], which a property read produces. *)
#[local] Unset Elimination Schemes.
Inductive JSValue :=
| JUndefined
| JNull
| JBool (b : bool)
| JNumber (x : float)
| JString (s : string)
| JArray (items : list JSValue)
| JObject (props : list (string * JSValue)).
#[local] Set Elimination Schemes.

(** ToBoolean: [undefined], [null], [false], [+0], [-0], [NaN] and the empty
    string are falsy; everything else, every object and array included, is
    truthy. *)
Definition truthy (v : JSValue) : bool :=
  match v with
  | JUndefined | JNull => false
  | JBool b => b
  | JNumber x => negb (PrimFloat.eqb x 0%float) && PrimFloat.eqb x x
  | JString s => negb (String.eqb s "")
  | JArray _ | JObject _ => true
  end.

(** [a || b] on values. *)
Definition js_or (a b : JSValue) : JSValue := if truthy a then a else b.

Inductive JSError :=
| TypeError (msg : string)
| SyntaxError (msg : string).

(** How a JavaScript computation ends: with a value, or by throwing (for an
    async function: a promise that resolves, or one that rejects). *)
Inductive Completion (A : Type) :=
| Normal (a : A)
| Throw (e : JSError).
Arguments Normal {A} a.
Arguments Throw {A} e.

Fixpoint own_property (props : list (string * JSValue)) (k : string) : option JSValue :=
  match props with
  | [] => None
  | (n, v) :: rest => if String.eqb n k then Some v else own_property rest k
  end.

(** [v.k] for the three names the push handler reads ([title], [body],
    [url]): an object yields its own property or [undefined]; [null] and
    [undefined] throw a TypeError; the other values have no such property. *)
Definition get_property (v : JSValue) (k : string) : Completion JSValue :=
  match v with
  | JUndefined | JNull =>
      Throw (TypeError ("Cannot read properties of null or undefined (reading '" ++ k ++ "')"))
  | JObject props =>
      match own_property props k with
      | Some x => Normal x
      | None => Normal JUndefined
      end
  | _ => Normal JUndefined
  end.

(** ** The host's Cache Storage

    A named key-value store, as the specification's data model has it: a
    cache maps the identity of a request (method and URL) to a stored
    response; the storage keeps its caches in creation order, which is the
    order [caches.keys()] lists them in and [caches.match] searches them
    in. *)

Definition RequestKey := (string * string)%type.

Definition key_of (r : Request) : RequestKey := (method r, url r).

Definition key_eqb (a b : RequestKey) : bool :=
  String.eqb (fst a) (fst b) && String.eqb (snd a) (snd b).

(** Modelled from the spec: the cache store belongs to the host and is not
    in the worker's source; a cache is the key-value store of the data
    model, from the identity of a request to the response stored for it. *)
Definition Cache := list (RequestKey * Response).

Fixpoint cache_lookup (c : Cache) (k : RequestKey) : option Response :=
  match c with
  | [] => None
  | (k', r) :: rest => if key_eqb k' k then Some r else cache_lookup rest k
  end.

(** [cache.put]: the entry of the same key, if any, is replaced. *)
Definition cache_insert (c : Cache) (k : RequestKey) (r : Response) : Cache :=
  (filter (fun e => negb (key_eqb (fst e) k)) c ++ [(k, r)])%list.

(** Modelled from the spec: the named cache generations the host keeps, in
    creation order. *)
Definition CacheStorage := list (string * Cache).

Definition storage_keys (s : CacheStorage) : list string := map fst s.

Fixpoint storage_get (s : CacheStorage) (name : string) : option Cache :=
  match s with
  | [] => None
  | (n, c) :: rest => if String.eqb n name then Some c else storage_get rest name
  end.

Definition storage_has (s : CacheStorage) (name : string) : bool :=
  match storage_get s name with Some _ => true | None => false end.

(** [caches.open(name)] creates the cache when it does not exist. *)
Definition storage_open (s : CacheStorage) (name : string) : CacheStorage :=
  if storage_has s name then s else (s ++ [(name, [])])%list.

Definition storage_delete (s : CacheStorage) (name : string) : CacheStorage :=
  filter (fun e => negb (String.eqb (fst e) name)) s.

Fixpoint storage_update (s : CacheStorage) (name : string) (f : Cache -> Cache)
  : CacheStorage :=
  match s with
  | [] => []
  | (n, c) :: rest =>
      if String.eqb n name then (n, f c) :: rest
      else (n, c) :: storage_update rest name f
  end.

(** [caches.match]: the first cache, in creation order, that has the key. *)
Fixpoint storage_match (s : CacheStorage) (k : RequestKey) : option Response :=
  match s with
  | [] => None
  | (_, c) :: rest =>
      match cache_lookup c k with
      | Some r => Some r
      | None => storage_match rest k
      end
  end.

(** *** What the host's [Cache.put] accepts

    The host rejects a put, with a TypeError and without storing anything,
    when the request's method is not GET, when the response's status is
    206, and when the response has a Vary header with the member [*].
    (Header names are compared without regard to case; the request's URL is
    taken to be an http(s) URL.) *)

Definition to_lower (c : ascii) : ascii :=
  let n := nat_of_ascii c in
  if (Nat.leb 65 n && Nat.leb n 90)%bool then ascii_of_nat (n + 32) else c.

Fixpoint lowercase (s : string) : string :=
  match s with
  | EmptyString => EmptyString
  | String c rest => String (to_lower c) (lowercase rest)
  end.

(** The pieces of a string between the occurrences of a separator. *)
Fixpoint split_on (sep : ascii) (s : string) : list string :=
  match s with
  | EmptyString => [EmptyString]
  | String c rest =>
      if Ascii.eqb c sep then EmptyString :: split_on sep rest
      else match split_on sep rest with
           | [] => [String c EmptyString]
           | piece :: more => String c piece :: more
           end
  end.

Definition is_space (c : ascii) : bool :=
  Ascii.eqb c " " || Ascii.eqb c (ascii_of_nat 9).

Fixpoint all_space (s : string) : bool :=
  match s with
  | EmptyString => true
  | String c rest => is_space c && all_space rest
  end.

(** A member of a header value that is [*], spaces around it apart. *)
Fixpoint is_star (piece : string) : bool :=
  match piece with
  | EmptyString => false
  | String c rest =>
      if is_space c then is_star rest
      else Ascii.eqb c "*" && all_space rest
  end.

Definition vary_star (r : Response) : bool :=
  existsb (fun h => String.eqb (lowercase (fst h)) "vary"
                    && existsb is_star (split_on "," (snd h)))
          (resp_headers r).

Definition host_accepts_put (k : RequestKey) (r : Response) : bool :=
  String.eqb (fst k) "GET" && negb (status r =? 206) && negb (vary_star r).

(** A put that was started: the cache, the key and the response. *)
Definition PutCall := (string * RequestKey * Response)%type.

(** The host completes a put that was started: the entry is written when
    the host accepts the put, and the storage is left as it is when the
    host rejects it. *)
Definition settle_put (p : PutCall) (s : CacheStorage) : CacheStorage :=
  let '(cache, k, r) := p in
  if host_accepts_put k r
  then storage_update s cache (fun c => cache_insert c k r)
  else s.

Definition settle_puts (ps : list PutCall) (s : CacheStorage) : CacheStorage :=
  fold_left (fun s' p => settle_put p s') ps s.

(** ** Notifications *)

Record NotificationAction := mkAction {
  action : string;
  action_title : string
}.

Record NotificationOptions := mkOptions {
  opt_body : JSValue;
  opt_icon : string;
  opt_badge : string;
  opt_data_url : JSValue;
  opt_actions : list NotificationAction
}.

(** ** The world and the trace of host calls *)

Inductive FetchOutcome :=
| Resolved (r : Response)
| Rejected (e : JSError).

Inductive Event :=
| EvFetch (r : Request)
| EvCachePut (cacheName : string) (k : RequestKey) (r : Response)
| EvCacheDelete (cacheName : string)
| EvConsoleLog (msg : string)
| EvConsoleError (msg : string)
| EvSkipWaiting
| EvClientsClaim
| EvShowNotification (title : JSValue) (options : NotificationOptions).

Record World := mkWorld {
  caches : CacheStorage;
  trace : list Event
}.

Definition emit (e : Event) (w : World) : World :=
  mkWorld (caches w) (trace w ++ [e])%list.

(** The requests fetched from the network along a trace. *)
Fixpoint fetches (t : list Event) : list Request :=
  match t with
  | [] => []
  | EvFetch r :: rest => r :: fetches rest
  | _ :: rest => fetches rest
  end.

(** The cache writes along a trace. *)
Fixpoint puts (t : list Event) : list (string * RequestKey * Response) :=
  match t with
  | [] => []
  | EvCachePut n k r :: rest => (n, k, r) :: puts rest
  | _ :: rest => puts rest
  end.

(** The notifications shown along a trace. *)
Fixpoint notifications (t : list Event) : list (JSValue * NotificationOptions) :=
  match t with
  | [] => []
  | EvShowNotification ti o :: rest => (ti, o) :: notifications rest
  | _ :: rest => notifications rest
  end.

(** ** The monad of worker code *)

Definition JS (A : Type) : Type := World -> Completion A * World.

Definition ret {A} (a : A) : JS A := fun w => (Normal a, w).

Definition throw {A} (e : JSError) : JS A := fun w => (Throw e, w).

Definition bind {A B} (m : JS A) (f : A -> JS B) : JS B :=
  fun w =>
    match m w with
    | (Normal a, w') => f a w'
    | (Throw e, w') => (Throw e, w')
    end.

(** [try { body } catch (error) { handler }] *)
Definition try_catch {A} (body : JS A) (handler : JSError -> JS A) : JS A :=
  fun w =>
    match body w with
    | (Normal a, w') => (Normal a, w')
    | (Throw e, w') => handler e w'
    end.

Definition lift {A} (c : Completion A) : JS A := fun w => (c, w).

Declare Scope js_scope.
Delimit Scope js_scope with js.
Notation "x <- c1 ;; c2" := (bind c1 (fun x => c2))
  (at level 61, c1 at next level, right associativity) : js_scope.
Notation "c1 ;; c2" := (bind c1 (fun _ => c2))
  (at level 61, right associativity) : js_scope.
Local Open Scope js_scope.

Fixpoint forEach {A} (f : A -> JS unit) (l : list A) : JS unit :=
  match l with
  | [] => ret tt
  | x :: rest => f x ;; forEach f rest
  end.

Definition console_log (msg : string) : JS unit :=
  fun w => (Normal tt, emit (EvConsoleLog msg) w).

Definition console_error (msg : string) : JS unit :=
  fun w => (Normal tt, emit (EvConsoleError msg) w).

Definition caches_match (k : RequestKey) : JS (option Response) :=
  fun w => (Normal (storage_match (caches w) k), w).

(** [caches.open(name)]; the handle of a cache is its name. *)
Definition caches_open (name : string) : JS string :=
  fun w => (Normal name, mkWorld (storage_open (caches w) name) (trace w)).

Definition caches_keys : JS (list string) :=
  fun w => (Normal (storage_keys (caches w)), w).

Definition caches_delete (name : string) : JS bool :=
  fun w => (Normal (storage_has (caches w) name),
            emit (EvCacheDelete name)
                 (mkWorld (storage_delete (caches w) name) (trace w))).

(** [cache.put(request, response)] as the strategies call it (lines 77 and
    107): without [await] and without [catch].  The call starts the write
    and returns at once; the storage is not changed when the strategy
    returns, and a rejection of the put's promise reaches no one.  The host
    completes the write later: [settle_put]. *)
Definition cache_put (cache : string) (request : Request) (response : Response)
  : JS unit :=
  fun w => (Normal tt, emit (EvCachePut cache (key_of request) response) w).

(** A write the host carries out inside an operation that is awaited (the
    bulk [addAll] of the install step): the entry is in the storage when
    the operation returns. *)
Definition cache_store (cache : string) (request : Request) (response : Response)
  : JS unit :=
  fun w =>
    (Normal tt,
     emit (EvCachePut cache (key_of request) response)
          (mkWorld (storage_update (caches w) cache
                      (fun c => cache_insert c (key_of request) response))
                   (trace w))).

Definition skipWaiting : JS unit := fun w => (Normal tt, emit EvSkipWaiting w).
Definition clients_claim : JS unit := fun w => (Normal tt, emit EvClientsClaim w).

Definition showNotification (title : JSValue) (options : NotificationOptions)
  : JS unit :=
  fun w => (Normal tt, emit (EvShowNotification title options) w).

(** [v.includes(sub)] on the result of [headers.get]: reading a property of
    [null] throws. *)
Definition header_includes (v : option string) (sub : string) : JS bool :=
  match v with
  | Some s => ret (includes s sub)
  | None => throw (TypeError "Cannot read properties of null (reading 'includes')")
  end.

(** ** The worker

    Three things belong to the host and are taken as given: the path of a
    URL ([new URL(u).pathname]), the resolution of a URL string against the
    worker's location (what [new Request(u)] does), and the network, which
    answers a fetch with a response or rejects it. *)

Section Worker.

Variable url_pathname : string -> string.
Variable resolve_url : string -> string.
Variable network : Request -> FetchOutcome.

(** [fetch(request)] *)
Definition fetch (request : Request) : JS Response :=
  fun w =>
    match network request with
    | Resolved r => (Normal r, emit (EvFetch request) w)
    | Rejected e => (Throw e, emit (EvFetch request) w)
    end.

(** [new Request(u)]: a GET request for the resolved URL, no header set. *)
Definition request_of_url (u : string) : Request :=
  mkRequest (resolve_url u) "GET" [].

(** A URL with the request made for it and the network's answer. *)
Definition outcome_of (u : string) : Request * FetchOutcome :=
  (request_of_url u, network (request_of_url u)).

(** [response.ok] *)
Definition ok (r : Response) : bool := (200 <=? status r) && (status r <=? 299).

(** The outcomes of fetching each URL of a list, in order. *)
Fixpoint fetch_all (urls : list string) : JS (list (Request * FetchOutcome)) :=
  match urls with
  | [] => ret []
  | u :: rest =>
      fun w =>
        let request := request_of_url u in
        match fetch_all rest (emit (EvFetch request) w) with
        | (Normal l, w') => (Normal ((request, network request) :: l), w')
        | (Throw e, w') => (Throw e, w')
        end
  end.

Definition fetched_ok (o : FetchOutcome) : bool :=
  match o with
  | Resolved r => ok r
  | Rejected _ => false
  end.

Fixpoint put_all (cache : string) (l : list (Request * FetchOutcome)) : JS unit :=
  match l with
  | [] => ret tt
  | (request, Resolved r) :: rest => cache_store cache request r ;; put_all cache rest
  | (_, Rejected _) :: rest => put_all cache rest
  end.

(** Modelled from the spec: [cache.addAll(urls)], the host's bulk operation,
    which the worker only calls.  It is all-or-nothing: every URL is
    fetched; when a fetch is rejected or its response is not [ok], the
    promise rejects with a TypeError and nothing is stored; otherwise every
    response is stored under its request. *)
Definition cache_addAll (cache : string) (urls : list string) : JS unit :=
  outcomes <- fetch_all urls ;;
  if forallb (fun p => fetched_ok (snd p)) outcomes
  then put_all cache outcomes
  else throw (TypeError "Failed to execute 'addAll' on 'Cache': Request failed").

(** *** install (lines 16-25) *)
Definition install : JS unit :=
  cache <- caches_open CACHE_NAME ;;
  console_log "打开缓存" ;;
  cache_addAll cache STATIC_CACHE_URLS ;;
  skipWaiting.

(** *** activate (lines 28-44) *)
Definition stale (cacheName : string) : bool :=
  startsWith cacheName "habit-tracker-" && negb (String.eqb cacheName CACHE_NAME).

(** The callback that deletes one stale cache. *)
Definition delete_stale (cacheName : string) : JS unit :=
  console_log ("删除旧缓存: " ++ cacheName) ;;
  _ <- caches_delete cacheName ;;
  ret tt.

Definition activate : JS unit :=
  cacheNames <- caches_keys ;;
  forEach delete_stale (filter stale cacheNames) ;;
  clients_claim.

(** *** cacheFirst (lines 61-95)

    The result is [None] when the function resolves with [undefined].  A
    fetch that resolves yields a Response object, which is truthy, so the
    guard of the write is the test of the status and of the method.  Of
    [console.error(message, error)] the trace keeps the message. *)
Definition cacheFirst (request : Request) : JS (option Response) :=
  cachedResponse <- caches_match (key_of request) ;;
  match cachedResponse with
  | Some r => ret (Some r)
  | None =>
      try_catch
        (networkResponse <- fetch request ;;
         (if (status networkResponse =? 200) && String.eqb (method request) "GET"
          then
            let responseToCache := clone networkResponse in
            cache <- caches_open CACHE_NAME ;;
            cache_put cache request responseToCache
          else ret tt) ;;
         ret (Some networkResponse))
        (fun error =>
           console_error "网络请求失败:" ;;
           html <- header_includes (headers_get (headers request) "accept") "text/html" ;;
           if html
           then caches_match (key_of (request_of_url "./index.html"))
           else ret (Some (new_Response "Network error happened" 408
                             [("Content-Type", "text/plain")])))
  end.

(** The placeholder body of the network-first strategy. *)
Definition OFFLINE_MESSAGE : string := "您当前处于离线状态，无法获取最新数据".

(** *** networkFirst (lines 98-126) *)
Definition networkFirst (request : Request) : JS (option Response) :=
  try_catch
    (networkResponse <- fetch request ;;
     (if status networkResponse =? 200
      then
        let responseToCache := clone networkResponse in
        cache <- caches_open CACHE_NAME ;;
        cache_put cache request responseToCache
      else ret tt) ;;
     ret (Some networkResponse))
    (fun error =>
       console_error "网络请求失败，使用缓存:" ;;
       cachedResponse <- caches_match (key_of request) ;;
       match cachedResponse with
       | Some r => ret (Some r)
       | None =>
           ret (Some (new_Response OFFLINE_MESSAGE 200
                        [("Content-Type", "text/plain")]))
       end).

(** *** The fetch listener (lines 47-58) *)
Definition is_api (request : Request) : bool :=
  startsWith (url_pathname (url request)) "/api/".

Definition onfetch (request : Request) : JS (option Response) :=
  if is_api request then networkFirst request else cacheFirst request.

End Worker.

(** ** The push listener (lines 153-183) *)

(** The payload of a push event; [json] is what [event.data.json()] returns,
    [None] when the text is not JSON and the call throws a SyntaxError. *)
Record PushMessageData := mkPushData {
  json : option JSValue
}.

Record PushEvent := mkPushEvent {
  data : option PushMessageData
}.

Definition DEFAULT_TITLE : string := "习惯打卡提醒".
Definition DEFAULT_BODY : string := "该打卡了！".
Definition DEFAULT_URL : string := "./index.html".

Definition PUSH_ACTIONS : list NotificationAction :=
  [ mkAction "checkin" "去打卡"; mkAction "later" "稍后提醒" ].

Definition data_json (d : PushMessageData) : JS JSValue :=
  match json d with
  | Some v => ret v
  | None => throw (SyntaxError "Unexpected token in JSON")
  end.

Definition onpush (event : PushEvent) : JS unit :=
  match data event with
  | None => ret tt
  | Some payload =>
      try_catch
        (data <- data_json payload ;;
         b <- lift (get_property data "body") ;;
         u <- lift (get_property data "url") ;;
         let options :=
           mkOptions (js_or b (JString DEFAULT_BODY))
                     "./icons/icon-192x192.svg"
                     "./icons/icon-72x72.svg"
                     (js_or u (JString DEFAULT_URL))
                     PUSH_ACTIONS in
         t <- lift (get_property data "title") ;;
         showNotification (js_or t (JString DEFAULT_TITLE)) options)
        (fun error => console_error "推送通知处理失败:")
  end.

(** The notification the specification describes for a parsed payload: each
    of title, body and target URL is the payload's field when the field is
    present, and the fixed default when it is absent. *)
Definition spec_field (data : JSValue) (k default : string) : JSValue :=
  match data with
  | JObject props =>
      match own_property props k with
      | Some v => v
      | None => JString default
      end
  | _ => JString default
  end.

Definition spec_notification (data : JSValue) : JSValue * NotificationOptions :=
  (spec_field data "title" DEFAULT_TITLE,
   mkOptions (spec_field data "body" DEFAULT_BODY)
             "./icons/icon-192x192.svg"
             "./icons/icon-72x72.svg"
             (spec_field data "url" DEFAULT_URL)
             PUSH_ACTIONS).

(** What the handler passes on: the field when it is present and truthy,
    the default otherwise. *)
Definition push_field (data : JSValue) (k default : string) : JSValue :=
  match data with
  | JObject props =>
      match own_property props k with
      | Some v => if truthy v then v else JString default
      | None => JString default
      end
  | _ => JString default
  end.

Definition push_notification (data : JSValue) : JSValue * NotificationOptions :=
  (push_field data "title" DEFAULT_TITLE,
   mkOptions (push_field data "body" DEFAULT_BODY)
             "./icons/icon-192x192.svg"
             "./icons/icon-72x72.svg"
             (push_field data "url" DEFAULT_URL)
             PUSH_ACTIONS).

(** A value whose properties can be read. *)
Definition object_coercible (v : JSValue) : bool :=
  match v with
  | JUndefined | JNull => false
  | _ => true
  end.

(** ** Observations on worlds *)

(** The entries of the cache of a given name; none when there is no such
    cache. *)
Definition contents (s : CacheStorage) (name : string) : Cache :=
  match storage_get s name with
  | Some c => c
  | None => []
  end.

(** A key is held by some cache of the storage, with that response. *)
Definition stored (s : CacheStorage) (k : RequestKey) (r : Response) : Prop :=
  exists name c, In (name, c) s /\ cache_lookup c k = Some r.

(** How many caches carry a name. *)
Definition generation_count (s : CacheStorage) (name : string) : nat :=
  length (filter (String.eqb name) (storage_keys s)).

(** The host keeps one cache per name. *)
Definition well_formed (s : CacheStorage) : Prop := NoDup (storage_keys s).

(** The two synthetic responses. *)
Definition NETWORK_ERROR_RESPONSE : Response :=
  new_Response "Network error happened" 408 [("Content-Type", "text/plain")].

Definition OFFLINE_RESPONSE : Response :=
  new_Response OFFLINE_MESSAGE 200 [("Content-Type", "text/plain")].

(** The storage once the write-through of a response has completed: the
    current generation is opened and the response stored under the
    request. *)
Definition write_through (request : Request) (r : Response) (s : CacheStorage)
  : CacheStorage :=
  storage_update (storage_open s CACHE_NAME) CACHE_NAME
    (fun c => cache_insert c (key_of request) r).

(** The guard of cache-first's write (line 73): status 200 and method GET. *)
Definition cacheFirst_persists (request : Request) (r : Response) : bool :=
  (status r =? 200) && String.eqb (method request) "GET".

(** The world once the host has completed a put that was started. *)
Definition put_settled (p : PutCall) (w : World) : World :=
  mkWorld (settle_put p (caches w)) (trace w).

(** Every entry of the second storage was in the first, or is a response of
    status 200 stored under a GET request. *)
Definition only_200_GET_added (s s' : CacheStorage) : Prop :=
  forall n k r,
    cache_lookup (contents s' n) k = Some r ->
    cache_lookup (contents s n) k = Some r \/
    (status r = 200 /\ fst k = "GET").

Definition PUSH_FAILED : Event := EvConsoleError "推送通知处理失败:".

(** The storage after the responses of a list of outcomes are stored. *)
Fixpoint put_all_storage (cache : string) (l : list (Request * FetchOutcome))
  (s : CacheStorage) : CacheStorage :=
  match l with
  | [] => s
  | (request, Resolved r) :: rest =>
      put_all_storage cache rest
        (storage_update s cache (fun c => cache_insert c (key_of request) r))
  | (_, Rejected _) :: rest => put_all_storage cache rest s
  end.

(** ** Client pages: the sync and notificationclick listeners

    These listeners talk to the open pages and not to the caches; they are
    written over a trace of their own.  What [clients.matchAll] resolves
    with, and whether [clients.openWindow] exists, are given by the host. *)

Record Client := mkClient {
  client_id : string;
  client_url : string;
  (** ['focus' in client] *)
  has_focus : bool
}.

Record Message := mkMessage {
  msg_type : string
}.

Inductive PageEvent :=
| PgPostMessage (client : Client) (message : Message)
| PgConsoleLog (msg : string)
| PgConsoleError (msg : string)
| PgNotificationClose
| PgFocus (client : Client)
| PgOpenWindow (target : JSValue).

Definition Page (A : Type) : Type := list PageEvent -> Completion A * list PageEvent.

Definition page_ret {A} (a : A) : Page A := fun t => (Normal a, t).

Definition page_bind {A B} (m : Page A) (f : A -> Page B) : Page B :=
  fun t =>
    match m t with
    | (Normal a, t') => f a t'
    | (Throw e, t') => (Throw e, t')
    end.

Definition page_try {A} (body : Page A) (handler : JSError -> Page A) : Page A :=
  fun t =>
    match body t with
    | (Normal a, t') => (Normal a, t')
    | (Throw e, t') => handler e t'
    end.

Definition page_lift {A} (c : Completion A) : Page A := fun t => (c, t).

Definition page_do (e : PageEvent) : Page unit :=
  fun t => (Normal tt, (t ++ [e])%list).

Declare Scope page_scope.
Delimit Scope page_scope with page.
Notation "x <- c1 ;; c2" := (page_bind c1 (fun x => c2))
  (at level 61, c1 at next level, right associativity) : page_scope.
Notation "c1 ;; c2" := (page_bind c1 (fun _ => c2))
  (at level 61, right associativity) : page_scope.

Fixpoint page_forEach {A} (f : A -> Page unit) (l : list A) : Page unit :=
  match l with
  | [] => page_ret tt
  | x :: rest => page_bind (f x) (fun _ => page_forEach f rest)
  end.

(** *** syncHabitsData (lines 136-150); [matchAll] is the outcome of
    [self.clients.matchAll()]. *)
Definition syncHabitsData (matchAll : Completion (list Client)) : Page unit :=
  page_try
    (clients <- page_lift matchAll ;;
     page_forEach (fun client => page_do (PgPostMessage client (mkMessage "SYNC_DATA")))
                  clients ;;
     page_do (PgConsoleLog "数据同步完成"))%page
    (fun error => page_do (PgConsoleError "数据同步失败:")).

(** *** The sync listener (lines 129-133) *)
Definition onsync (tag : string) (matchAll : Completion (list Client)) : Page unit :=
  if String.eqb tag "sync-habits-data" then syncHabitsData matchAll else page_ret tt.

(** [client.url === urlToOpen]: a string is strictly equal to a value only
    when the value is that string. *)
Definition url_strict_eq (u : string) (v : JSValue) : bool :=
  match v with
  | JString s => String.eqb u s
  | _ => false
  end.

(** The body of the [then] callback: the loop over the window clients, and
    the new window when the loop returns nothing. *)
Fixpoint focus_or_open (clientList : list Client) (urlToOpen : JSValue)
  (openWindow : bool) : Page unit :=
  match clientList with
  | [] => if openWindow then page_do (PgOpenWindow urlToOpen) else page_ret tt
  | client :: rest =>
      if url_strict_eq (client_url client) urlToOpen && has_focus client
      then page_do (PgFocus client)
      else focus_or_open rest urlToOpen openWindow
  end.

(** *** The notificationclick listener (lines 186-206); [notification_data]
    is [event.notification.data], [matchAll] the outcome of
    [clients.matchAll({ type: 'window', includeUncontrolled: true })], and
    [openWindow] tells whether [clients.openWindow] exists. *)
Definition onnotificationclick (notification_data : JSValue)
  (matchAll : Completion (list Client)) (openWindow : bool) : Page unit :=
  (page_do PgNotificationClose ;;
   urlToOpen <- page_lift (get_property notification_data "url") ;;
   clientList <- page_lift matchAll ;;
   focus_or_open clientList urlToOpen openWindow)%page.

(** The data a notification carries when the push listener shows it with
    these options: [{ url: ... }]. *)
Definition notification_data_of (options : NotificationOptions) : JSValue :=
  JObject [("url", opt_data_url options)].

(** ** Further observations *)

(** The messages posted along a page trace. *)
Fixpoint posted (t : list PageEvent) : list (Client * Message) :=
  match t with
  | [] => []
  | PgPostMessage c m :: rest => (c, m) :: posted rest
  | _ :: rest => posted rest
  end.

(** The caches deleted along a trace. *)
Fixpoint deletions (t : list Event) : list string :=
  match t with
  | [] => []
  | EvCacheDelete n :: rest => n :: deletions rest
  | _ :: rest => deletions rest
  end.

(** A client the notificationclick loop stops at. *)
Definition shows (target : string) (c : Client) : bool :=
  String.eqb (client_url c) target && has_focus c.

(** ** Sample hosts and inputs *)

(** A site whose URLs are written as absolute paths. *)
Definition sample_pathname (u : string) : string := u.
Definition sample_resolve (u : string) : string := u.

Definition offline (_ : Request) : FetchOutcome :=
  Rejected (TypeError "Failed to fetch").

Definition online (r : Response) (_ : Request) : FetchOutcome := Resolved r.

Definition empty_world : World := mkWorld [] [].

Definition logo_request : Request := mkRequest "/logo.png" "GET" [].

Definition logo_response : Response :=
  mkResponse 200 [("Content-Type", "image/png")] "PNG".

Definition habits_request : Request :=
  mkRequest "/api/habits" "GET" [("accept", "application/json")].

Definition habits_response : Response :=
  mkResponse 200 [("Content-Type", "application/json")] "[]".

Definition habits_post : Request :=
  mkRequest "/api/habits" "POST" [("accept", "application/json")].

Definition index_request : Request :=
  mkRequest "/index.html" "GET" [("accept", "text/html")].

Definition about_request : Request :=
  mkRequest "/about" "GET" [("accept", "text/html,application/xhtml+xml")].

Definition tab_index : Client := mkClient "tab-1" "https://habits.example/index.html" true.
Definition tab_stats : Client := mkClient "tab-2" "https://habits.example/stats.html" true.


Definition vary_star_response : Response :=
  mkResponse 200 [("Content-Type", "text/html"); ("Vary", "*")] "<!DOCTYPE html>".

Definition index_response : Response :=
  mkResponse 200 [("Content-Type", "text/html")] "<!DOCTYPE html>".

Definition reminder_payload : PushMessageData :=
  mkPushData (Some (JObject [ ("title", JString "Reminder");
                              ("body", JString "Time to check in");
                              ("url", JString "./index.html") ])).

Definition empty_title_payload : JSValue :=
  JObject [ ("title", JString ""); ("body", JString "Time to check in") ].

Definition old_world : World :=
  mkWorld [ ("habit-tracker-v0", [(key_of logo_request, logo_response)]);
            ("user-data", [(key_of habits_request, habits_response)]) ]
          [].

Definition asset : Response := mkResponse 200 [] "asset".

(** A network on which one URL of the manifest answers 404. *)
Definition missing_manifest (request : Request) : FetchOutcome :=
  if String.eqb (url request) "./manifest.json"
  then Resolved (mkResponse 404 [] "Not Found")
  else Resolved asset.

(** * Properties *)

Local Open Scope list_scope.

(** ** Strings and values *)

Example includes_html :
  includes "text/html,application/xhtml+xml,*/*;q=0.8" "text/html" = true
  /\ includes "image/png,*/*" "text/html" = false.
Proof. split; reflexivity. Qed.

Example startsWith_api :
  startsWith "/api/habits" "/api/" = true /\ startsWith "/index.html" "/api/" = false.
Proof. split; reflexivity. Qed.

Example truthy_values :
  truthy (JString "") = false /\ truthy (JNumber 0) = false /\
  truthy (JNumber (-0)) = false /\ truthy (JNumber nan) = false /\
  truthy (JNumber 1.5) = true /\ truthy (JObject []) = true.
Proof. repeat split; reflexivity. Qed.

Example host_accepts_put_examples :
  vary_star (mkResponse 200 [("vary", "Accept-Encoding, *")] "") = true /\
  vary_star (mkResponse 200 [("Vary", "Accept")] "") = false /\
  vary_star vary_star_response = true /\
  host_accepts_put (key_of habits_post) habits_response = false /\
  host_accepts_put (key_of index_request) vary_star_response = false /\
  host_accepts_put (key_of index_request) index_response = true.
Proof. repeat split; reflexivity. Qed.

(** ** Keys and caches *)

Lemma key_eqb_eq (a b : RequestKey) : key_eqb a b = true <-> a = b.
Proof.
  destruct a as [m1 u1], b as [m2 u2]. unfold key_eqb. simpl.
  rewrite andb_true_iff, !String.eqb_eq. split.
  - intros [-> ->]. reflexivity.
  - intros H. inversion H. auto.
Qed.

Lemma key_eqb_refl (k : RequestKey) : key_eqb k k = true.
Proof. apply key_eqb_eq. reflexivity. Qed.

Lemma key_eqb_neq (a b : RequestKey) : key_eqb a b = false <-> a <> b.
Proof.
  rewrite <- key_eqb_eq. destruct (key_eqb a b); split; intros H.
  - discriminate.
  - exfalso. apply H. reflexivity.
  - discriminate.
  - reflexivity.
Qed.

Lemma cache_lookup_app (c1 c2 : Cache) (k : RequestKey) :
  cache_lookup (c1 ++ c2) k =
  match cache_lookup c1 k with
  | Some r => Some r
  | None => cache_lookup c2 k
  end.
Proof.
  induction c1 as [|[k' r'] c1 IH]; simpl; [reflexivity|].
  destruct (key_eqb k' k); [reflexivity | exact IH].
Qed.

Lemma cache_lookup_filter_other (c : Cache) (k k' : RequestKey) :
  cache_lookup (filter (fun e => negb (key_eqb (fst e) k)) c) k' =
  if key_eqb k k' then None else cache_lookup c k'.
Proof.
  induction c as [|[k0 r0] c IH]; simpl.
  - destruct (key_eqb k k'); reflexivity.
  - destruct (key_eqb k0 k) eqn:E0; simpl.
    + apply key_eqb_eq in E0. subst k0.
      rewrite IH. destruct (key_eqb k k'); reflexivity.
    + rewrite IH. destruct (key_eqb k0 k') eqn:E1; [|reflexivity].
      apply key_eqb_eq in E1. subst k0.
      destruct (key_eqb k k') eqn:E2; [|reflexivity].
      apply key_eqb_eq in E2. subst k'. rewrite key_eqb_refl in E0. discriminate.
Qed.

Lemma cache_lookup_insert (c : Cache) (k k' : RequestKey) (r : Response) :
  cache_lookup (cache_insert c k r) k' =
  if key_eqb k k' then Some r else cache_lookup c k'.
Proof.
  unfold cache_insert. rewrite cache_lookup_app, cache_lookup_filter_other.
  simpl. destruct (key_eqb k k'); [reflexivity|].
  destruct (cache_lookup c k'); reflexivity.
Qed.

Lemma storage_match_stored (s : CacheStorage) (k : RequestKey) (r : Response) :
  storage_match s k = Some r -> stored s k r.
Proof.
  induction s as [|[n c] s IH]; simpl; [discriminate|].
  destruct (cache_lookup c k) as [r'|] eqn:E.
  - intros H. inversion H. subst r'. exists n, c. split; [left; reflexivity | exact E].
  - intros H. destruct (IH H) as (n' & c' & Hin & Hl).
    exists n', c'. split; [right; exact Hin | exact Hl].
Qed.

Lemma stored_storage_match (s : CacheStorage) (k : RequestKey) (r0 : Response) :
  stored s k r0 -> exists r, storage_match s k = Some r.
Proof.
  intros (n & c & Hin & Hl).
  induction s as [|[n' c'] s IH]; simpl; [destruct Hin|].
  destruct (cache_lookup c' k) as [r'|] eqn:E; [exists r'; reflexivity|].
  destruct Hin as [Heq|Hin].
  - inversion Heq. subst. congruence.
  - apply IH. exact Hin.
Qed.

(** ** The cache-first strategy on a hit *)

(** C1: a request routed to the cache-first strategy (its path is not an
    API path) whose key some cache holds is answered with a stored response
    of that key, the world is left as it was, and no request goes to the
    network. *)
Theorem cacheFirst_hit_no_fetch
  (url_pathname resolve_url : string -> string)
  (network : Request -> FetchOutcome) (request : Request) (w : World) :
  is_api url_pathname request = false ->
  (exists r0, stored (caches w) (key_of request) r0) ->
  exists r,
    stored (caches w) (key_of request) r /\
    onfetch url_pathname resolve_url network request w = (Normal (Some r), w) /\
    fetches (trace (snd (onfetch url_pathname resolve_url network request w)))
    = fetches (trace w).
Proof.
  intros Hapi [r0 Hr0].
  destruct (stored_storage_match _ _ _ Hr0) as [r Hm].
  exists r. split; [apply storage_match_stored; exact Hm|].
  assert (E : onfetch url_pathname resolve_url network request w
              = (Normal (Some r), w)).
  { unfold onfetch. rewrite Hapi. unfold cacheFirst, bind, caches_match.
    rewrite Hm. reflexivity. }
  split; [exact E | rewrite E; reflexivity].
Qed.

Lemma cacheFirst_hit_no_fetch_witness :
  exists r,
    stored [(CACHE_NAME, [(key_of logo_request, logo_response)])]
           (key_of logo_request) r /\
    onfetch sample_pathname sample_resolve offline logo_request
      (mkWorld [(CACHE_NAME, [(key_of logo_request, logo_response)])] [])
    = (Normal (Some r),
       mkWorld [(CACHE_NAME, [(key_of logo_request, logo_response)])] []) /\
    fetches (trace (snd (onfetch sample_pathname sample_resolve offline logo_request
      (mkWorld [(CACHE_NAME, [(key_of logo_request, logo_response)])] []))))
    = [].
Proof.
  apply (cacheFirst_hit_no_fetch sample_pathname sample_resolve offline logo_request
           (mkWorld [(CACHE_NAME, [(key_of logo_request, logo_response)])] [])).
  - reflexivity.
  - exists logo_response, CACHE_NAME, [(key_of logo_request, logo_response)].
    split; [left; reflexivity | reflexivity].
Defined.

(** ** The network-first strategy when the network fails *)

Lemma networkFirst_offline_fallback_aux
  (network : Request -> FetchOutcome) (request : Request) (w : World)
  (e : JSError) :
  network request = Rejected e ->
  exists r w', networkFirst network request w = (Normal (Some r), w').
Proof.
  intros Hnet.
  unfold networkFirst, try_catch, bind, fetch. rewrite Hnet.
  unfold console_error, caches_match. simpl.
  destruct (storage_match (caches w) (key_of request)) as [r|];
    eexists; eexists; reflexivity.
Qed.

(** C2: when the fetch of a request served network-first is rejected, the
    strategy returns a response and throws nothing: the cached entry of the
    request when there is one, and otherwise the plain-text placeholder of
    status 200.  The caches are left as they were. *)
Theorem networkFirst_offline_fallback
  (network : Request -> FetchOutcome) (request : Request) (w : World)
  (e : JSError) :
  network request = Rejected e ->
  exists w',
    networkFirst network request w
    = (Normal (Some (match storage_match (caches w) (key_of request) with
                     | Some r => r
                     | None => OFFLINE_RESPONSE
                     end)), w') /\
    caches w' = caches w /\
    status OFFLINE_RESPONSE = 200 /\
    headers_get (resp_headers OFFLINE_RESPONSE) "Content-Type" = Some "text/plain"%string.
Proof.
  intros Hnet.
  unfold networkFirst, try_catch, bind, fetch. rewrite Hnet.
  unfold console_error, caches_match. simpl.
  destruct (storage_match (caches w) (key_of request)) as [r|];
    eexists; (split; [reflexivity|]); repeat split; reflexivity.
Qed.

Lemma networkFirst_offline_fallback_witness :
  exists w',
    networkFirst offline habits_request empty_world
    = (Normal (Some OFFLINE_RESPONSE), w') /\
    caches w' = [] /\
    status OFFLINE_RESPONSE = 200 /\
    headers_get (resp_headers OFFLINE_RESPONSE) "Content-Type" = Some "text/plain"%string.
Proof.
  apply (networkFirst_offline_fallback offline habits_request empty_world
           (TypeError "Failed to fetch")).
  reflexivity.
Defined.

(** The same, with an entry in the cache. *)
Example networkFirst_offline_cached :
  fst (networkFirst offline habits_request
         (mkWorld [(CACHE_NAME, [(key_of habits_request, habits_response)])] []))
  = Normal (Some habits_response).
Proof. reflexivity. Qed.

(** ** The serving strategies, path by path *)

Lemma cacheFirst_miss_online
  (resolve_url : string -> string) (network : Request -> FetchOutcome)
  (request : Request) (w : World) (r : Response) :
  storage_match (caches w) (key_of request) = None ->
  network request = Resolved r ->
  cacheFirst resolve_url network request w
  = (Normal (Some r),
     if cacheFirst_persists request r
     then mkWorld (storage_open (caches w) CACHE_NAME)
                  ((trace w ++ [EvFetch request])
                     ++ [EvCachePut CACHE_NAME (key_of request) r])
     else mkWorld (caches w) (trace w ++ [EvFetch request])).
Proof.
  intros Hmiss Hnet.
  unfold cacheFirst, bind, caches_match. rewrite Hmiss.
  unfold try_catch, fetch. rewrite Hnet. unfold cacheFirst_persists.
  destruct ((status r =? 200) && String.eqb (method request) "GET");
    reflexivity.
Qed.

Lemma cacheFirst_miss_offline
  (resolve_url : string -> string) (network : Request -> FetchOutcome)
  (request : Request) (w : World) (e : JSError) :
  storage_match (caches w) (key_of request) = None ->
  network request = Rejected e ->
  cacheFirst resolve_url network request w
  = (match headers_get (headers request) "accept" with
     | None => Throw (TypeError "Cannot read properties of null (reading 'includes')")
     | Some a =>
         if includes a "text/html"
         then Normal (storage_match (caches w)
                        (key_of (request_of_url resolve_url "./index.html")))
         else Normal (Some NETWORK_ERROR_RESPONSE)
     end,
     mkWorld (caches w)
             ((trace w ++ [EvFetch request]) ++ [EvConsoleError "网络请求失败:"])).
Proof.
  intros Hmiss Hnet.
  unfold cacheFirst, bind, caches_match. rewrite Hmiss.
  unfold try_catch, fetch. rewrite Hnet.
  unfold console_error, header_includes. simpl.
  destruct (headers_get (headers request) "accept") as [a|]; simpl;
    [|reflexivity].
  destruct (includes a "text/html"); reflexivity.
Qed.

Lemma networkFirst_online
  (network : Request -> FetchOutcome) (request : Request) (w : World)
  (r : Response) :
  network request = Resolved r ->
  networkFirst network request w
  = (Normal (Some r),
     if status r =? 200
     then mkWorld (storage_open (caches w) CACHE_NAME)
                  ((trace w ++ [EvFetch request])
                     ++ [EvCachePut CACHE_NAME (key_of request) r])
     else mkWorld (caches w) (trace w ++ [EvFetch request])).
Proof.
  intros Hnet. unfold networkFirst, try_catch, bind, fetch. rewrite Hnet.
  simpl. destruct (status r =? 200); reflexivity.
Qed.

Lemma puts_app (t1 t2 : list Event) : puts (t1 ++ t2) = puts t1 ++ puts t2.
Proof.
  induction t1 as [|ev t1 IH]; simpl; [reflexivity|].
  destruct ev; simpl; rewrite IH; reflexivity.
Qed.


(** X21: cache-first writes a response only when its status is 200 and the
    request is a GET: a serve writes nothing, or writes the one response
    the network gave, under the request, into the current generation. *)
Lemma cacheFirst_writes_only_200_GET
  (resolve_url : string -> string) (network : Request -> FetchOutcome)
  (request : Request) (w : World) :
  puts (trace (snd (cacheFirst resolve_url network request w))) = puts (trace w)
  \/ exists r,
       network request = Resolved r /\ status r = 200 /\
       method request = "GET"%string /\
       puts (trace (snd (cacheFirst resolve_url network request w)))
       = puts (trace w) ++ [(CACHE_NAME, key_of request, r)].
Proof.
  destruct (storage_match (caches w) (key_of request)) as [c|] eqn:Hm.
  - left. unfold cacheFirst, bind, caches_match. rewrite Hm. reflexivity.
  - destruct (network request) as [r|e] eqn:Hn.
    + rewrite (cacheFirst_miss_online _ _ _ _ _ Hm Hn).
      unfold cacheFirst_persists.
      destruct (status r =? 200) eqn:Hs; simpl.
      * destruct (String.eqb (method request) "GET") eqn:Hg; simpl.
        -- right. exists r. apply Z.eqb_eq in Hs. apply String.eqb_eq in Hg.
           repeat split; auto. rewrite !puts_app. simpl.
           rewrite app_nil_r. reflexivity.
        -- left. rewrite puts_app. simpl. apply app_nil_r.
      * left. rewrite puts_app. simpl. apply app_nil_r.
    + left. rewrite (cacheFirst_miss_offline _ _ _ _ _ Hm Hn). simpl.
      rewrite !puts_app. simpl. rewrite !app_nil_r. reflexivity.
Qed.

(** X22: network-first writes a response only when its status is 200; the
    method of the request is not looked at.  A serve writes nothing, or
    writes the one response the network gave, under the request, into the
    current generation. *)
Lemma networkFirst_writes_only_200
  (network : Request -> FetchOutcome) (request : Request) (w : World) :
  puts (trace (snd (networkFirst network request w))) = puts (trace w)
  \/ exists r,
       network request = Resolved r /\ status r = 200 /\
       puts (trace (snd (networkFirst network request w)))
       = puts (trace w) ++ [(CACHE_NAME, key_of request, r)].
Proof.
  destruct (network request) as [r|e] eqn:Hn.
  - rewrite (networkFirst_online _ _ _ _ Hn).
    destruct (status r =? 200) eqn:Hs; simpl.
    + right. exists r. apply Z.eqb_eq in Hs. repeat split; auto.
      rewrite !puts_app. simpl. rewrite app_nil_r. reflexivity.
    + left. rewrite puts_app. simpl. apply app_nil_r.
  - left. unfold networkFirst, try_catch, bind, fetch. rewrite Hn.
    unfold console_error, caches_match. simpl.
    destruct (storage_match (caches w) (key_of request)); simpl;
      rewrite !puts_app; simpl; rewrite !app_nil_r; reflexivity.
Qed.

(** ** Cache-first when the network fails *)

(** X20: with an accept header on the request, the catch branch answers as
    the specification says and throws nothing: the cache lookup of the
    application shell for an HTML request (no response at all when the
    shell is in no cache), the 408 placeholder otherwise. *)
Lemma cacheFirst_offline_with_accept
  (resolve_url : string -> string) (network : Request -> FetchOutcome)
  (request : Request) (w : World) (e : JSError) (a : string) :
  storage_match (caches w) (key_of request) = None ->
  network request = Rejected e ->
  headers_get (headers request) "accept" = Some a ->
  fst (cacheFirst resolve_url network request w)
  = Normal (if includes a "text/html"
            then storage_match (caches w)
                   (key_of (request_of_url resolve_url "./index.html"))
            else Some NETWORK_ERROR_RESPONSE).
Proof.
  intros Hm Hn Ha. rewrite (cacheFirst_miss_offline _ _ _ _ _ Hm Hn), Ha.
  simpl. destruct (includes a "text/html"); reflexivity.
Qed.

Lemma cacheFirst_offline_with_accept_witness :
  fst (cacheFirst sample_resolve offline
         (mkRequest "/logo.png" "GET" [("accept", "image/png,*/*")]) empty_world)
  = Normal (Some NETWORK_ERROR_RESPONSE)
  /\ status NETWORK_ERROR_RESPONSE = 408.
Proof.
  split; [|reflexivity].
  apply (cacheFirst_offline_with_accept sample_resolve offline
           (mkRequest "/logo.png" "GET" [("accept", "image/png,*/*")])
           empty_world (TypeError "Failed to fetch") "image/png,*/*");
    reflexivity.
Defined.

(** C3 (the code departs from the claim): a static request that carries no
    accept header, missing from the cache, with the network down.  Its
    accept header includes no HTML content type, so the claim promises the
    plain-text response of status 408; [cacheFirst] reads [includes] off the
    [null] that [headers.get] returned and throws a TypeError out of its
    catch block instead. *)
Theorem cacheFirst_offline_no_accept_header :
  cacheFirst sample_resolve offline logo_request empty_world
  = (Throw (TypeError "Cannot read properties of null (reading 'includes')"),
     mkWorld [] [EvFetch logo_request; EvConsoleError "网络请求失败:"]).
Proof. reflexivity. Qed.

(** C7 (the code departs from the claim): the strategies are not total
    under network failure.  For every request without an accept header that
    misses the cache, a rejected fetch makes [cacheFirst] end by throwing a
    TypeError: no fallback response is returned. *)
Theorem cacheFirst_error_escapes
  (resolve_url : string -> string) (network : Request -> FetchOutcome)
  (request : Request) (w : World) (e : JSError) :
  storage_match (caches w) (key_of request) = None ->
  network request = Rejected e ->
  headers_get (headers request) "accept" = None ->
  exists msg w',
    cacheFirst resolve_url network request w = (Throw (TypeError msg), w').
Proof.
  intros Hm Hn Ha. rewrite (cacheFirst_miss_offline _ _ _ _ _ Hm Hn), Ha.
  eexists. eexists. reflexivity.
Qed.

Lemma cacheFirst_error_escapes_witness :
  exists msg w',
    cacheFirst sample_resolve offline
      (mkRequest "/data.bin" "GET" [("x-requested-with", "XMLHttpRequest")])
      empty_world
    = (Throw (TypeError msg), w').
Proof.
  apply (cacheFirst_error_escapes sample_resolve offline
           (mkRequest "/data.bin" "GET" [("x-requested-with", "XMLHttpRequest")])
           empty_world (TypeError "Failed to fetch")); reflexivity.
Defined.

(** X23: the network-first strategy never throws and never resolves with
    [undefined]: whatever the network and the caches do, it returns a
    response. *)
Lemma networkFirst_total
  (network : Request -> FetchOutcome) (request : Request) (w : World) :
  exists r w', networkFirst network request w = (Normal (Some r), w').
Proof.
  destruct (network request) as [r|e] eqn:Hn.
  - rewrite (networkFirst_online _ _ _ _ Hn). eexists. eexists. reflexivity.
  - destruct (networkFirst_offline_fallback_aux network request w e Hn)
      as (r & w' & H). exists r, w'. exact H.
Qed.

(** ** The push listener *)

(** C10: a push event without data makes the handler return at once: no
    notification, no error, nothing logged; the world is as it was. *)
Theorem push_without_data (w : World) :
  onpush (mkPushEvent None) w = (Normal tt, w).
Proof. reflexivity. Qed.

(** C9, as the code has it: the handler never throws.  When the payload
    parses to a value other than [null], one notification is shown; its
    title, body and target URL are the payload's fields where a field is
    present and truthy, and the fixed defaults where it is absent or falsy
    (empty string, zero, [false], [null]); its actions are "checkin" and
    "later".  When the payload does not parse, or parses to [null], the
    error is caught and logged and no notification is shown. *)
Theorem push_with_data (payload : PushMessageData) (w : World) :
  onpush (mkPushEvent (Some payload)) w
  = (Normal tt,
     match json payload with
     | Some v =>
         if object_coercible v
         then emit (EvShowNotification (fst (push_notification v))
                                       (snd (push_notification v))) w
         else emit PUSH_FAILED w
     | None => emit PUSH_FAILED w
     end)
  /\ forall v, map action (opt_actions (snd (push_notification v)))
               = ["checkin"%string; "later"%string].
Proof.
  split; [|reflexivity].
  unfold onpush, try_catch, bind, data_json. simpl.
  destruct (json payload) as [v|]; [|reflexivity].
  destruct v; try reflexivity.
  simpl. unfold lift, showNotification, push_notification. simpl.
  destruct (own_property props "body") as [b|];
    destruct (own_property props "url") as [u|];
    destruct (own_property props "title") as [t|];
    reflexivity.
Qed.

(** The scenario of the specification. *)
Example push_reminder :
  notifications (trace (snd (onpush (mkPushEvent (Some reminder_payload)) empty_world)))
  = [ (JString "Reminder",
       mkOptions (JString "Time to check in")
                 "./icons/icon-192x192.svg" "./icons/icon-72x72.svg"
                 (JString "./index.html") PUSH_ACTIONS) ].
Proof. reflexivity. Qed.

(** C9 as the claim states it fails twice.  A payload whose title is
    present and is the empty string gets the default title, not its own;
    and the payload [null], which parses, gets no notification at all. *)
Lemma push_claim_counterexample :
  notifications
    (trace (snd (onpush (mkPushEvent (Some (mkPushData (Some empty_title_payload))))
                        empty_world)))
  <> [spec_notification empty_title_payload]
  /\ notifications
       (trace (snd (onpush (mkPushEvent (Some (mkPushData (Some JNull))))
                           empty_world)))
     <> [spec_notification JNull].
Proof. split; vm_compute; discriminate. Qed.

(** ** The storage *)

Lemma storage_has_In (s : CacheStorage) (n : string) :
  storage_has s n = true <-> In n (storage_keys s).
Proof.
  unfold storage_has. induction s as [|[n0 c0] s IH]; simpl.
  - split; [discriminate | intros []].
  - destruct (String.eqb n0 n) eqn:E.
    + apply String.eqb_eq in E. split; auto.
    + apply String.eqb_neq in E. rewrite IH. split; [auto|].
      intros [H|H]; [contradiction | exact H].
Qed.

Lemma storage_keys_update (s : CacheStorage) (n : string) (f : Cache -> Cache) :
  storage_keys (storage_update s n f) = storage_keys s.
Proof.
  unfold storage_keys. induction s as [|[n0 c0] s IH]; simpl; [reflexivity|].
  destruct (String.eqb n0 n); simpl; [reflexivity | rewrite IH; reflexivity].
Qed.

Lemma storage_get_update_same (s : CacheStorage) (n : string) (f : Cache -> Cache) :
  storage_get (storage_update s n f) n = option_map f (storage_get s n).
Proof.
  induction s as [|[n0 c0] s IH]; simpl; [reflexivity|].
  destruct (String.eqb n0 n) eqn:E; simpl; rewrite E; [reflexivity | exact IH].
Qed.

Lemma storage_get_update_other (s : CacheStorage) (n n' : string) (f : Cache -> Cache) :
  n <> n' -> storage_get (storage_update s n f) n' = storage_get s n'.
Proof.
  intros Hne. induction s as [|[n0 c0] s IH]; simpl; [reflexivity|].
  destruct (String.eqb n0 n) eqn:E; simpl.
  - apply String.eqb_eq in E. subst n0.
    apply String.eqb_neq in Hne. rewrite Hne. reflexivity.
  - rewrite IH. reflexivity.
Qed.

Lemma storage_get_app (s t : CacheStorage) (n : string) :
  storage_get (s ++ t) n =
  match storage_get s n with
  | Some c => Some c
  | None => storage_get t n
  end.
Proof.
  induction s as [|[n0 c0] s IH]; simpl; [reflexivity|].
  destruct (String.eqb n0 n); [reflexivity | exact IH].
Qed.

Lemma storage_has_open (s : CacheStorage) (n : string) :
  storage_has (storage_open s n) n = true.
Proof.
  unfold storage_open. destruct (storage_has s n) eqn:E; [exact E|].
  unfold storage_has in *. rewrite storage_get_app.
  destruct (storage_get s n); [discriminate|]. simpl.
  rewrite String.eqb_refl. reflexivity.
Qed.

(** Opening a cache changes the entries of no cache. *)
Lemma contents_open (s : CacheStorage) (n n' : string) :
  contents (storage_open s n) n' = contents s n'.
Proof.
  unfold storage_open, contents. destruct (storage_has s n) eqn:E; [reflexivity|].
  rewrite storage_get_app. destruct (storage_get s n') eqn:G; [reflexivity|].
  simpl. destruct (String.eqb n n'); reflexivity.
Qed.

Lemma well_formed_open (s : CacheStorage) (n : string) :
  well_formed s -> well_formed (storage_open s n).
Proof.
  unfold well_formed, storage_open. intros Hnd.
  destruct (storage_has s n) eqn:E; [exact Hnd|].
  unfold storage_keys. rewrite map_app. simpl.
  apply NoDup_app; [exact Hnd | constructor; [intros [] | constructor] |].
  intros a Ha [Hb|[]]. subst a.
  apply storage_has_In in Ha. congruence.
Qed.

Lemma contents_update_same (s : CacheStorage) (n : string) (f : Cache -> Cache) :
  storage_has s n = true ->
  contents (storage_update s n f) n = f (contents s n).
Proof.
  unfold storage_has, contents. rewrite storage_get_update_same.
  destruct (storage_get s n); [reflexivity | discriminate].
Qed.

Lemma storage_has_update (s : CacheStorage) (n n' : string) (f : Cache -> Cache) :
  storage_has (storage_update s n f) n' = storage_has s n'.
Proof.
  destruct (storage_has s n') eqn:E.
  - apply storage_has_In. rewrite storage_keys_update. apply storage_has_In. exact E.
  - destruct (storage_has (storage_update s n f) n') eqn:E'; [|reflexivity].
    apply storage_has_In in E'. rewrite storage_keys_update in E'.
    apply storage_has_In in E'. congruence.
Qed.

Lemma storage_update_absent (s t : CacheStorage) (n : string) (f : Cache -> Cache) :
  storage_has s n = false ->
  storage_update (s ++ t) n f = s ++ storage_update t n f.
Proof.
  unfold storage_has. induction s as [|[n0 c0] s IH]; simpl; [reflexivity|].
  destruct (String.eqb n0 n); [discriminate|].
  intros H. rewrite (IH H). reflexivity.
Qed.

Lemma storage_match_app (s t : CacheStorage) (k : RequestKey) :
  storage_match (s ++ t) k =
  match storage_match s k with
  | Some r => Some r
  | None => storage_match t k
  end.
Proof.
  induction s as [|[n0 c0] s IH]; simpl; [reflexivity|].
  destruct (cache_lookup c0 k); [reflexivity | exact IH].
Qed.



(** ** What is persisted *)

Lemma storage_update_missing (s : CacheStorage) (n : string) (f : Cache -> Cache) :
  storage_has s n = false -> storage_update s n f = s.
Proof.
  unfold storage_has. induction s as [|[n0 c0] s IH]; simpl; [reflexivity|].
  destruct (String.eqb n0 n); [discriminate|].
  intros H. rewrite (IH H). reflexivity.
Qed.

Lemma contents_update_other (s : CacheStorage) (n n' : string) (f : Cache -> Cache) :
  n <> n' -> contents (storage_update s n f) n' = contents s n'.
Proof.
  intros Hne. unfold contents. rewrite storage_get_update_other by exact Hne.
  reflexivity.
Qed.

Lemma host_accepts_put_GET (k : RequestKey) (r : Response) :
  host_accepts_put k r = true -> fst k = "GET"%string.
Proof.
  unfold host_accepts_put. rewrite !andb_true_iff. intros [[H _] _].
  apply String.eqb_eq. exact H.
Qed.

Lemma only_200_GET_added_open (s : CacheStorage) (n : string) :
  only_200_GET_added s (storage_open s n).
Proof. intros n' k r H. left. rewrite contents_open in H. exact H. Qed.

(** A put of a response of status 200 that completes adds nothing but a
    200 response under a GET request: the host stores it for a GET request
    and stores nothing otherwise. *)
Lemma only_200_GET_added_settle (s0 s : CacheStorage) (cache : string)
  (k : RequestKey) (r : Response) :
  only_200_GET_added s0 s ->
  status r = 200 ->
  only_200_GET_added s0 (settle_put (cache, k, r) s).
Proof.
  intros H Hst. unfold settle_put.
  destruct (host_accepts_put k r) eqn:Hacc; [|exact H].
  apply host_accepts_put_GET in Hacc.
  intros n k' r' Hl.
  destruct (String.eqb cache n) eqn:En.
  - apply String.eqb_eq in En. subst n.
    destruct (storage_has s cache) eqn:Hh.
    + rewrite (contents_update_same _ _ _ Hh), cache_lookup_insert in Hl.
      destruct (key_eqb k k') eqn:Ek.
      * apply key_eqb_eq in Ek. subst k'. inversion Hl. subst r'.
        right. split; assumption.
      * apply H. exact Hl.
    + rewrite (storage_update_missing _ _ _ Hh) in Hl. apply H. exact Hl.
  - apply String.eqb_neq in En. rewrite contents_update_other in Hl by exact En.
    apply H. exact Hl.
Qed.

Lemma strategy_adds_only_200_GET (s s' : CacheStorage) (ps : list PutCall) :
  s' = s \/ s' = storage_open s CACHE_NAME ->
  ps = [] \/ (exists k r, ps = [(CACHE_NAME, k, r)] /\ status r = 200) ->
  only_200_GET_added s s' /\ only_200_GET_added s (settle_puts ps s').
Proof.
  intros Hs Hps.
  assert (H : only_200_GET_added s s').
  { destruct Hs as [->| ->]; [intros n k r Hl; left; exact Hl|].
    apply only_200_GET_added_open. }
  split; [exact H|].
  destruct Hps as [->|(k & r & -> & Hst)]; [exact H|].
  apply only_200_GET_added_settle; assumption.
Qed.

(** C4: whichever strategy serves a request, a response gets into the cache
    only if its status is 200 and the request's method is GET.  Neither
    when the strategy returns, nor when the writes it started have
    completed, does the storage hold an entry that was not there before
    and is not a 200 response under a GET request.  (Cache-first asks for
    the write of a 200 response to a GET only; network-first asks for the
    write of every 200 response, and the host's [Cache.put] refuses the
    request that is not a GET.) *)
Theorem serve_persists_only_200_GET
  (resolve_url : string -> string) (network : Request -> FetchOutcome)
  (request : Request) (w : World) :
  (exists ps,
     puts (trace (snd (cacheFirst resolve_url network request w)))
     = puts (trace w) ++ ps /\
     only_200_GET_added (caches w)
       (caches (snd (cacheFirst resolve_url network request w))) /\
     only_200_GET_added (caches w)
       (settle_puts ps (caches (snd (cacheFirst resolve_url network request w)))))
  /\
  (exists ps,
     puts (trace (snd (networkFirst network request w))) = puts (trace w) ++ ps /\
     only_200_GET_added (caches w) (caches (snd (networkFirst network request w))) /\
     only_200_GET_added (caches w)
       (settle_puts ps (caches (snd (networkFirst network request w))))).
Proof.
  split.
  - destruct (storage_match (caches w) (key_of request)) as [c|] eqn:Hm.
    + exists []. unfold cacheFirst, bind, caches_match. rewrite Hm. cbn [snd].
      split; [rewrite app_nil_r; reflexivity|].
      apply strategy_adds_only_200_GET; left; reflexivity.
    + destruct (network request) as [r|e] eqn:Hn.
      * rewrite (cacheFirst_miss_online _ _ _ _ _ Hm Hn).
        unfold cacheFirst_persists.
        destruct (status r =? 200) eqn:Hs; cbn [andb].
        -- destruct (String.eqb (method request) "GET") eqn:Hg; cbn [snd caches trace].
           ++ exists [(CACHE_NAME, key_of request, r)]. split.
              ** rewrite !puts_app. simpl. rewrite app_nil_r. reflexivity.
              ** apply strategy_adds_only_200_GET; [right; reflexivity|].
                 right. exists (key_of request), r. split; [reflexivity|].
                 apply Z.eqb_eq. exact Hs.
           ++ exists []. split.
              ** rewrite puts_app. simpl. rewrite !app_nil_r. reflexivity.
              ** apply strategy_adds_only_200_GET; left; reflexivity.
        -- exists []. cbn [snd caches trace]. split.
           ++ rewrite puts_app. simpl. rewrite !app_nil_r. reflexivity.
           ++ apply strategy_adds_only_200_GET; left; reflexivity.
      * rewrite (cacheFirst_miss_offline _ _ _ _ _ Hm Hn). cbn [snd caches trace].
        exists []. split.
        -- rewrite !puts_app. simpl. rewrite !app_nil_r. reflexivity.
        -- apply strategy_adds_only_200_GET; left; reflexivity.
  - destruct (network request) as [r|e] eqn:Hn.
    + rewrite (networkFirst_online _ _ _ _ Hn).
      destruct (status r =? 200) eqn:Hs; cbn [snd caches trace].
      * exists [(CACHE_NAME, key_of request, r)]. split.
        -- rewrite !puts_app. simpl. rewrite app_nil_r. reflexivity.
        -- apply strategy_adds_only_200_GET; [right; reflexivity|].
           right. exists (key_of request), r. split; [reflexivity|].
           apply Z.eqb_eq. exact Hs.
      * exists []. split.
        -- rewrite puts_app. simpl. rewrite !app_nil_r. reflexivity.
        -- apply strategy_adds_only_200_GET; left; reflexivity.
    + exists []. unfold networkFirst, try_catch, bind, fetch. rewrite Hn.
      unfold console_error, caches_match. cbn [caches emit fst snd].
      destruct (storage_match (caches w) (key_of request));
        (split; [simpl; rewrite !puts_app; simpl; rewrite !app_nil_r; reflexivity|]);
        apply strategy_adds_only_200_GET; left; reflexivity.
Qed.

(** Network-first on a POST answered 200: the put is asked for, the host
    refuses it, and nothing is stored. *)
Example networkFirst_post_put_refused :
  puts (trace (snd (networkFirst (online habits_response) habits_post empty_world)))
  = [(CACHE_NAME, ("POST"%string, "/api/habits"%string), habits_response)]
  /\ settle_puts
       [(CACHE_NAME, key_of habits_post, habits_response)]
       (caches (snd (networkFirst (online habits_response) habits_post empty_world)))
     = [(CACHE_NAME, [])].
Proof. split; reflexivity. Qed.

(** The same request through cache-first: no put is asked for. *)
Example cacheFirst_skips_post :
  puts (trace (snd (cacheFirst sample_resolve (online habits_response)
                      habits_post empty_world)))
  = [].
Proof. reflexivity. Qed.

(** ** Serving the same request twice *)

Lemma settle_write_through (request : Request) (r : Response) (s : CacheStorage) :
  host_accepts_put (key_of request) r = true ->
  settle_put (CACHE_NAME, key_of request, r) (storage_open s CACHE_NAME)
  = write_through request r s.
Proof. intros H. unfold settle_put, write_through. rewrite H. reflexivity. Qed.





(** ** Activation *)

Lemma delete_stale_run (n : string) (w : World) :
  delete_stale n w
  = (Normal tt,
     mkWorld (storage_delete (caches w) n)
             ((trace w ++ [EvConsoleLog ("删除旧缓存: " ++ n)%string])
                ++ [EvCacheDelete n])).
Proof. reflexivity. Qed.

Lemma forEach_delete_caches (names : list string) (w : World) :
  fst (forEach delete_stale names w) = Normal tt /\
  caches (snd (forEach delete_stale names w))
  = fold_left storage_delete names (caches w).
Proof.
  revert w. induction names as [|n names IH]; intros w.
  - split; reflexivity.
  - cbn [forEach fold_left]. unfold bind. rewrite delete_stale_run. apply IH.
Qed.

Lemma filter_all {A} (l : list A) : filter (fun _ => true) l = l.
Proof. induction l as [|a l IH]; simpl; [reflexivity | rewrite IH; reflexivity]. Qed.

Lemma filter_twice {A} (f g : A -> bool) (l : list A) :
  filter f (filter g l) = filter (fun x => g x && f x) l.
Proof.
  induction l as [|a l IH]; simpl; [reflexivity|].
  destruct (g a); simpl; [destruct (f a); rewrite IH; reflexivity | exact IH].
Qed.

(** Deleting a list of names keeps exactly the caches of the other names. *)
Lemma fold_delete_filter (names : list string) (s : CacheStorage) :
  fold_left storage_delete names s
  = filter (fun e => negb (existsb (String.eqb (fst e)) names)) s.
Proof.
  revert s. induction names as [|n names IH]; intros s; simpl.
  - symmetry. apply filter_all.
  - rewrite IH. unfold storage_delete. rewrite filter_twice.
    apply filter_ext. intros [n0 c0]. simpl.
    destruct (String.eqb n0 n); reflexivity.
Qed.

Lemma existsb_stale_keys (s : CacheStorage) (n : string) :
  In n (storage_keys s) ->
  existsb (String.eqb n) (filter stale (storage_keys s)) = stale n.
Proof.
  intros Hin. destruct (stale n) eqn:E.
  - apply existsb_exists. exists n. split; [|apply String.eqb_refl].
    apply filter_In. split; assumption.
  - destruct (existsb (String.eqb n) (filter stale (storage_keys s))) eqn:X;
      [|reflexivity].
    apply existsb_exists in X. destruct X as (x & Hx & Heq).
    apply String.eqb_eq in Heq. subst x. apply filter_In in Hx.
    destruct Hx as [_ Hx]. congruence.
Qed.

(** The activate step deletes the stale caches and nothing else; the
    others keep their place and their entries. *)
Lemma activate_caches (w : World) :
  fst (activate w) = Normal tt /\
  caches (snd (activate w))
  = filter (fun e => negb (stale (fst e))) (caches w).
Proof.
  unfold activate.
  destruct (forEach_delete_caches (filter stale (storage_keys (caches w))) w)
    as [H1 H2].
  unfold bind, caches_keys.
  destruct (forEach delete_stale (filter stale (storage_keys (caches w))) w)
    as [[[]|e] w'] eqn:E; simpl in *; [|discriminate].
  split; [reflexivity|].
  rewrite H2, fold_delete_filter. apply filter_ext_in.
  intros [n0 c0] Hin. simpl. f_equal.
  apply existsb_stale_keys. unfold storage_keys.
  change n0 with (fst (n0, c0)). apply in_map. exact Hin.
Qed.

Lemma storage_keys_filter (p : string -> bool) (s : CacheStorage) :
  storage_keys (filter (fun e => p (fst e)) s) = filter p (storage_keys s).
Proof.
  unfold storage_keys. induction s as [|[n0 c0] s IH]; simpl; [reflexivity|].
  destruct (p n0); simpl; rewrite IH; reflexivity.
Qed.

Lemma storage_get_filter (p : string -> bool) (s : CacheStorage) (n : string) :
  storage_get (filter (fun e => p (fst e)) s) n
  = if p n then storage_get s n else None.
Proof.
  induction s as [|[n0 c0] s IH]; simpl.
  - destruct (p n); reflexivity.
  - destruct (p n0) eqn:P0; simpl; destruct (String.eqb n0 n) eqn:E; try exact IH.
    + apply String.eqb_eq in E. subst n0. rewrite P0. reflexivity.
    + apply String.eqb_eq in E. subst n0. rewrite P0. rewrite IH, P0. reflexivity.
Qed.

Lemma generation_count_one (s : CacheStorage) (n : string) :
  well_formed s -> storage_has s n = true -> generation_count s n = 1%nat.
Proof.
  unfold well_formed, generation_count. rewrite storage_has_In.
  induction (storage_keys s) as [|a l IH]; simpl; [intros _ []|].
  intros Hnd Hin. inversion Hnd as [|? ? Hnot Hnd']. subst.
  destruct (String.eqb n a) eqn:E.
  - apply String.eqb_eq in E. subst a. simpl. f_equal.
    assert (H : filter (String.eqb n) l = []).
    { clear -Hnot. induction l as [|b l IHl]; simpl; [reflexivity|].
      destruct (String.eqb n b) eqn:Eb.
      - apply String.eqb_eq in Eb. subst b. exfalso. apply Hnot. left. reflexivity.
      - apply IHl. intros H. apply Hnot. right. exact H. }
    rewrite H. reflexivity.
  - apply String.eqb_neq in E. destruct Hin as [Heq|Hin]; [congruence|].
    apply IH; assumption.
Qed.

Lemma stale_current : stale CACHE_NAME = false.
Proof. reflexivity. Qed.

(** Activation from any storage that holds the current generation. *)
Lemma activate_exclusive (w : World) :
  well_formed (caches w) ->
  storage_has (caches w) CACHE_NAME = true ->
  fst (activate w) = Normal tt /\
  generation_count (caches (snd (activate w))) CACHE_NAME = 1%nat /\
  (forall n, startsWith n "habit-tracker-" = true -> n <> CACHE_NAME ->
             ~ In n (storage_keys (caches (snd (activate w))))) /\
  (forall n, startsWith n "habit-tracker-" = false ->
             storage_get (caches (snd (activate w))) n = storage_get (caches w) n) /\
  storage_get (caches (snd (activate w))) CACHE_NAME
  = storage_get (caches w) CACHE_NAME.
Proof.
  intros Hwf Hhas. destruct (activate_caches w) as [Hres Hc].
  split; [exact Hres|]. rewrite Hc.
  pose (keep := fun n => negb (stale n)).
  change (fun e : string * Cache => negb (stale (fst e)))
    with (fun e : string * Cache => keep (fst e)).
  split; [|split; [|split]].
  - apply generation_count_one.
    + unfold well_formed. rewrite storage_keys_filter. apply NoDup_filter. exact Hwf.
    + unfold storage_has in *. rewrite storage_get_filter. exact Hhas.
  - intros n Hp Hne. rewrite storage_keys_filter. intros Hin.
    apply filter_In in Hin. destruct Hin as [_ Hk].
    unfold keep, stale in Hk. rewrite Hp in Hk.
    apply String.eqb_neq in Hne. rewrite Hne in Hk. discriminate.
  - intros n Hp. rewrite storage_get_filter. unfold keep, stale. rewrite Hp.
    reflexivity.
  - rewrite storage_get_filter. reflexivity.
Qed.

(** ** Installation *)

Section Install.

Variable resolve_url : string -> string.
Variable network : Request -> FetchOutcome.

Lemma fetch_all_run (urls : list string) (w : World) :
  fetch_all resolve_url network urls w
  = (Normal (map (outcome_of resolve_url network) urls),
     mkWorld (caches w)
             (trace w ++ map (fun u => EvFetch (request_of_url resolve_url u)) urls)).
Proof.
  revert w. induction urls as [|u urls IH]; intros w.
  - simpl. rewrite app_nil_r. destruct w; reflexivity.
  - cbn [fetch_all map]. rewrite IH. unfold outcome_of at 1. simpl.
    rewrite <- app_assoc. reflexivity.
Qed.

Lemma put_all_run (cache : string) (l : list (Request * FetchOutcome)) (w : World) :
  fst (put_all cache l w) = Normal tt /\
  caches (snd (put_all cache l w)) = put_all_storage cache l (caches w).
Proof.
  revert w. induction l as [|[request [r|e]] l IH]; intros w.
  - split; reflexivity.
  - cbn [put_all put_all_storage]. unfold bind, cache_store. apply IH.
  - cbn [put_all put_all_storage]. apply IH.
Qed.

Lemma put_all_storage_keys (cache : string) (l : list (Request * FetchOutcome))
  (s : CacheStorage) :
  storage_keys (put_all_storage cache l s) = storage_keys s.
Proof.
  revert s. induction l as [|[request [r|e]] l IH]; intros s; simpl.
  - reflexivity.
  - rewrite IH. apply storage_keys_update.
  - apply IH.
Qed.

Lemma put_all_storage_has (cache n : string) (l : list (Request * FetchOutcome))
  (s : CacheStorage) :
  storage_has (put_all_storage cache l s) n = storage_has s n.
Proof.
  destruct (storage_has s n) eqn:E.
  - apply storage_has_In. rewrite put_all_storage_keys. apply storage_has_In. exact E.
  - destruct (storage_has (put_all_storage cache l s) n) eqn:E'; [|reflexivity].
    apply storage_has_In in E'. rewrite put_all_storage_keys in E'.
    apply storage_has_In in E'. congruence.
Qed.

(** An entry survives the later writes when they agree with it. *)
Lemma put_all_storage_keeps (cache : string) (l : list (Request * FetchOutcome))
  (s : CacheStorage) (k : RequestKey) (r : Response) :
  storage_has s cache = true ->
  cache_lookup (contents s cache) k = Some r ->
  (forall request r', In (request, Resolved r') l -> key_of request = k -> r' = r) ->
  cache_lookup (contents (put_all_storage cache l s) cache) k = Some r.
Proof.
  revert s. induction l as [|[request [r0|e]] l IH]; intros s Hhas Hl Hc; simpl.
  - exact Hl.
  - apply IH.
    + rewrite storage_has_update. exact Hhas.
    + rewrite (contents_update_same _ _ _ Hhas), cache_lookup_insert.
      destruct (key_eqb (key_of request) k) eqn:E; [|exact Hl].
      apply key_eqb_eq in E. f_equal. apply (Hc request); [left; reflexivity | exact E].
    + intros request' r' Hin. apply Hc. right. exact Hin.
  - apply IH; [exact Hhas | exact Hl |].
    intros request' r' Hin. apply Hc. right. exact Hin.
Qed.

(** Every response of the list is in the cache afterwards, provided two
    outcomes of the same key carry the same response. *)
Lemma put_all_storage_lookup (cache : string) (l : list (Request * FetchOutcome))
  (s : CacheStorage) (request : Request) (r : Response) :
  storage_has s cache = true ->
  In (request, Resolved r) l ->
  (forall q1 r1 q2 r2,
      In (q1, Resolved r1) l -> In (q2, Resolved r2) l ->
      key_of q1 = key_of q2 -> r1 = r2) ->
  cache_lookup (contents (put_all_storage cache l s) cache) (key_of request) = Some r.
Proof.
  revert s. induction l as [|[q0 [r0|e]] l IH]; intros s Hhas Hin Hc; simpl.
  - destruct Hin.
  - destruct Hin as [Heq|Hin].
    + inversion Heq. subst q0 r0. apply put_all_storage_keeps.
      * rewrite storage_has_update. exact Hhas.
      * rewrite (contents_update_same _ _ _ Hhas), cache_lookup_insert, key_eqb_refl.
        reflexivity.
      * intros q' r' Hin' Hk. apply (Hc q' r' request r);
          [right; exact Hin' | left; reflexivity | exact Hk].
    + apply IH; [rewrite storage_has_update; exact Hhas | exact Hin |].
      intros q1 r1 q2 r2 H1 H2. apply Hc; right; assumption.
  - destruct Hin as [Heq|Hin]; [discriminate|].
    apply IH; [exact Hhas | exact Hin |].
    intros q1 r1 q2 r2 H1 H2. apply Hc; right; assumption.
Qed.

Lemma outcomes_consistent (urls : list string) :
  forall q1 r1 q2 r2,
    In (q1, Resolved r1) (map (outcome_of resolve_url network) urls) ->
    In (q2, Resolved r2) (map (outcome_of resolve_url network) urls) ->
    key_of q1 = key_of q2 -> r1 = r2.
Proof.
  intros q1 r1 q2 r2 H1 H2 Hk.
  apply in_map_iff in H1. destruct H1 as (u1 & E1 & _).
  apply in_map_iff in H2. destruct H2 as (u2 & E2 & _).
  unfold outcome_of in E1, E2. inversion E1 as [[Hq1 Hr1]].
  inversion E2 as [[Hq2 Hr2]]. subst q1 q2.
  unfold key_of, request_of_url in Hk. simpl in Hk. inversion Hk as [Hu].
  unfold request_of_url in Hr1, Hr2. rewrite Hu in Hr1. congruence.
Qed.

Lemma forallb_outcomes (urls : list string) :
  forallb (fun p => fetched_ok (snd p)) (map (outcome_of resolve_url network) urls)
  = forallb (fun u => fetched_ok (network (request_of_url resolve_url u))) urls.
Proof.
  induction urls as [|u urls IH]; simpl; [reflexivity | rewrite IH; reflexivity].
Qed.

Lemma cache_addAll_run (cache : string) (urls : list string) (w : World) :
  cache_addAll resolve_url network cache urls w
  = if forallb (fun u => fetched_ok (network (request_of_url resolve_url u))) urls
    then put_all cache (map (outcome_of resolve_url network) urls)
           (mkWorld (caches w)
              (trace w ++ map (fun u => EvFetch (request_of_url resolve_url u)) urls))
    else (Throw (TypeError "Failed to execute 'addAll' on 'Cache': Request failed"),
          mkWorld (caches w)
            (trace w ++ map (fun u => EvFetch (request_of_url resolve_url u)) urls)).
Proof.
  unfold cache_addAll, bind. rewrite fetch_all_run, forallb_outcomes.
  destruct (forallb (fun u => fetched_ok (network (request_of_url resolve_url u))) urls);
    reflexivity.
Qed.

Lemma install_unfold (w : World) :
  install resolve_url network w
  = match cache_addAll resolve_url network CACHE_NAME STATIC_CACHE_URLS
            (mkWorld (storage_open (caches w) CACHE_NAME)
                     (trace w ++ [EvConsoleLog "打开缓存"])) with
    | (Normal _, w') => skipWaiting w'
    | (Throw e, w') => (Throw e, w')
    end.
Proof. reflexivity. Qed.

(** The install step, in closed form. *)
Lemma install_run (w : World) :
  let opened := storage_open (caches w) CACHE_NAME in
  let fetched :=
    (trace w ++ [EvConsoleLog "打开缓存"])
      ++ map (fun u => EvFetch (request_of_url resolve_url u)) STATIC_CACHE_URLS in
  if forallb (fun u => fetched_ok (network (request_of_url resolve_url u)))
       STATIC_CACHE_URLS
  then
    fst (install resolve_url network w) = Normal tt /\
    caches (snd (install resolve_url network w))
    = put_all_storage CACHE_NAME (map (outcome_of resolve_url network) STATIC_CACHE_URLS) opened
  else
    install resolve_url network w
    = (Throw (TypeError "Failed to execute 'addAll' on 'Cache': Request failed"),
       mkWorld opened fetched).
Proof.
  intros opened fetched.
  rewrite install_unfold, cache_addAll_run.
  destruct (forallb (fun u => fetched_ok (network (request_of_url resolve_url u)))
              STATIC_CACHE_URLS) eqn:E.
  - match goal with
    | |- context [put_all CACHE_NAME ?l ?w0] =>
        destruct (put_all_run CACHE_NAME l w0) as [H1 H2];
        destruct (put_all CACHE_NAME l w0) as [[[]|e] w'] eqn:P;
        simpl in H1, H2; [|discriminate]
    end.
    split; [reflexivity | exact H2].
  - reflexivity.
Qed.

End Install.

Lemma puts_fetch_events (resolve_url : string -> string) (urls : list string) :
  puts (map (fun u => EvFetch (request_of_url resolve_url u)) urls) = [].
Proof. induction urls as [|u urls IH]; simpl; [reflexivity | exact IH]. Qed.

(** A successful install leaves a well-formed storage that holds the
    current generation. *)
Lemma install_creates_generation
  (resolve_url : string -> string) (network : Request -> FetchOutcome)
  (w0 w1 : World) :
  well_formed (caches w0) ->
  install resolve_url network w0 = (Normal tt, w1) ->
  well_formed (caches w1) /\ storage_has (caches w1) CACHE_NAME = true.
Proof.
  intros Hwf Hinst. pose proof (install_run resolve_url network w0) as H.
  cbv zeta in H.
  destruct (forallb (fun u => fetched_ok (network (request_of_url resolve_url u)))
              STATIC_CACHE_URLS).
  - destruct H as [_ Hc]. rewrite Hinst in Hc. cbn [snd] in Hc. rewrite Hc. split.
    + unfold well_formed. rewrite put_all_storage_keys.
      apply well_formed_open. exact Hwf.
    + rewrite put_all_storage_has. apply storage_has_open.
  - rewrite Hinst in H. discriminate.
Qed.

(** C5: the activate step that follows a successful install completes, and
    then exactly one cache carries the name of the current generation; no
    cache is left whose name starts with the prefix "habit-tracker-" and is
    not that name; the caches whose names do not start with the prefix, and
    the current generation itself, are as they were. *)
Theorem activation_generation_exclusive
  (resolve_url : string -> string) (network : Request -> FetchOutcome)
  (w0 w1 : World) :
  well_formed (caches w0) ->
  install resolve_url network w0 = (Normal tt, w1) ->
  fst (activate w1) = Normal tt /\
  generation_count (caches (snd (activate w1))) CACHE_NAME = 1%nat /\
  (forall n, startsWith n "habit-tracker-" = true -> n <> CACHE_NAME ->
             ~ In n (storage_keys (caches (snd (activate w1))))) /\
  (forall n, startsWith n "habit-tracker-" = false ->
             storage_get (caches (snd (activate w1))) n = storage_get (caches w1) n) /\
  storage_get (caches (snd (activate w1))) CACHE_NAME
  = storage_get (caches w1) CACHE_NAME.
Proof.
  intros Hwf Hinst.
  destruct (install_creates_generation _ _ _ _ Hwf Hinst) as [Hwf1 Hhas].
  apply activate_exclusive; assumption.
Qed.

(** ** Installation is all or nothing *)

(** C6: when the fetch of some URL of the manifest fails (it is rejected,
    or its response is not ok), the install step fails, every cache has the
    entries it had before, and nothing is written; when the fetches all
    succeed, the install step succeeds and the current generation holds,
    under each URL of the manifest, the response fetched for it. *)
Theorem install_all_or_nothing
  (resolve_url : string -> string) (network : Request -> FetchOutcome)
  (w : World) :
  ((exists u, In u STATIC_CACHE_URLS /\
              fetched_ok (network (request_of_url resolve_url u)) = false) ->
   exists e w',
     install resolve_url network w = (Throw e, w') /\
     (forall n, contents (caches w') n = contents (caches w) n) /\
     puts (trace w') = puts (trace w))
  /\
  ((forall u, In u STATIC_CACHE_URLS ->
              fetched_ok (network (request_of_url resolve_url u)) = true) ->
   exists w',
     install resolve_url network w = (Normal tt, w') /\
     forall u, In u STATIC_CACHE_URLS ->
       exists r,
         network (request_of_url resolve_url u) = Resolved r /\
         cache_lookup (contents (caches w') CACHE_NAME)
                      (key_of (request_of_url resolve_url u))
         = Some r).
Proof.
  pose proof (install_run resolve_url network w) as H. cbv zeta in H.
  split.
  - intros (u & Hin & Hbad).
    destruct (forallb (fun u => fetched_ok (network (request_of_url resolve_url u)))
                STATIC_CACHE_URLS) eqn:E.
    + rewrite forallb_forall in E. rewrite (E u Hin) in Hbad. discriminate.
    + eexists. eexists. split; [exact H|]. split.
      * intros n. apply contents_open.
      * cbn [trace]. rewrite !puts_app, puts_fetch_events. cbn [puts].
        rewrite !app_nil_r. reflexivity.
  - intros Hall.
    assert (E : forallb (fun u => fetched_ok (network (request_of_url resolve_url u)))
                  STATIC_CACHE_URLS = true)
      by (apply forallb_forall; exact Hall).
    rewrite E in H. destruct H as [Hres Hc].
    exists (snd (install resolve_url network w)). split.
    + rewrite <- Hres. apply surjective_pairing.
    + intros u Hin. specialize (Hall u Hin).
      destruct (network (request_of_url resolve_url u)) as [r|e] eqn:Hn;
        [|discriminate].
      exists r. split; [reflexivity|]. rewrite Hc.
      apply put_all_storage_lookup.
      * apply storage_has_open.
      * apply in_map_iff. exists u. split; [|exact Hin].
        unfold outcome_of. rewrite Hn. reflexivity.
      * apply outcomes_consistent.
Qed.

(** ** The lifecycle on a sample storage *)

Example install_then_activate_keys :
  storage_keys
    (caches (snd (activate (snd (install sample_resolve (online asset) old_world)))))
  = ["user-data"%string; "habit-tracker-v1"%string].
Proof. reflexivity. Qed.

Lemma old_world_well_formed : well_formed (caches old_world).
Proof.
  unfold well_formed. simpl.
  repeat constructor; simpl; intuition discriminate.
Qed.

Lemma activation_generation_exclusive_witness :
  fst (activate (snd (install sample_resolve (online asset) old_world))) = Normal tt /\
  generation_count
    (caches (snd (activate (snd (install sample_resolve (online asset) old_world)))))
    CACHE_NAME = 1%nat /\
  (forall n, startsWith n "habit-tracker-" = true -> n <> CACHE_NAME ->
             ~ In n (storage_keys
                       (caches (snd (activate
                          (snd (install sample_resolve (online asset) old_world))))))) /\
  (forall n, startsWith n "habit-tracker-" = false ->
             storage_get
               (caches (snd (activate
                  (snd (install sample_resolve (online asset) old_world))))) n
             = storage_get
                 (caches (snd (install sample_resolve (online asset) old_world))) n) /\
  storage_get
    (caches (snd (activate (snd (install sample_resolve (online asset) old_world)))))
    CACHE_NAME
  = storage_get (caches (snd (install sample_resolve (online asset) old_world)))
      CACHE_NAME.
Proof.
  apply (activation_generation_exclusive sample_resolve (online asset) old_world
           (snd (install sample_resolve (online asset) old_world))).
  - exact old_world_well_formed.
  - reflexivity.
Defined.

Lemma install_all_or_nothing_witness :
  (exists e w',
     install sample_resolve offline old_world = (Throw e, w') /\
     (forall n, contents (caches w') n = contents (caches old_world) n) /\
     puts (trace w') = puts (trace old_world))
  /\
  (exists w',
     install sample_resolve (online asset) old_world = (Normal tt, w') /\
     forall u, In u STATIC_CACHE_URLS ->
       exists r,
         online asset (request_of_url sample_resolve u) = Resolved r /\
         cache_lookup (contents (caches w') CACHE_NAME)
                      (key_of (request_of_url sample_resolve u))
         = Some r).
Proof.
  split.
  - apply (proj1 (install_all_or_nothing sample_resolve offline old_world)).
    exists "./index.html"%string. split; [left; reflexivity | reflexivity].
  - apply (proj2 (install_all_or_nothing sample_resolve (online asset) old_world)).
    intros u _. reflexivity.
Defined.

(** One URL of the manifest answered 404: nothing of the manifest is stored. *)
Example install_partial_failure :
  fst (install sample_resolve missing_manifest empty_world)
  = Throw (TypeError "Failed to execute 'addAll' on 'Cache': Request failed")
  /\ caches (snd (install sample_resolve missing_manifest empty_world))
     = [(CACHE_NAME, [])].
Proof. split; reflexivity. Qed.

(** * Further properties of the listeners *)

(** ** The router and the network-first strategy on line *)

(** X1: a request to an API path that the network answers is served the
    network's response, whatever its status and whatever the caches hold
    for it. *)
Theorem api_request_served_live
  (url_pathname resolve_url : string -> string)
  (network : Request -> FetchOutcome) (request : Request) (w : World)
  (r : Response) :
  is_api url_pathname request = true ->
  network request = Resolved r ->
  fst (onfetch url_pathname resolve_url network request w) = Normal (Some r).
Proof.
  intros Hapi Hnet. unfold onfetch. rewrite Hapi.
  rewrite (networkFirst_online _ _ _ _ Hnet). reflexivity.
Qed.

Lemma api_request_served_live_witness :
  fst (onfetch sample_pathname sample_resolve
         (online (mkResponse 200 [] "[1]")) habits_request
         (mkWorld [(CACHE_NAME, [(key_of habits_request, habits_response)])] []))
  = Normal (Some (mkResponse 200 [] "[1]")).
Proof.
  apply (api_request_served_live sample_pathname sample_resolve
           (online (mkResponse 200 [] "[1]")) habits_request
           (mkWorld [(CACHE_NAME, [(key_of habits_request, habits_response)])] [])
           (mkResponse 200 [] "[1]")); reflexivity.
Defined.

(** X2: network-first falls back to the cache only when the fetch is
    rejected.  A response of another status than 200 (a 500, a 404) is
    returned as it is, even when the cache holds an entry for the request,
    and the caches are not touched. *)
Theorem networkFirst_error_status_passes
  (network : Request -> FetchOutcome) (request : Request) (w : World)
  (r : Response) :
  network request = Resolved r ->
  status r <> 200 ->
  networkFirst network request w
  = (Normal (Some r), mkWorld (caches w) (trace w ++ [EvFetch request])).
Proof.
  intros Hnet Hst. rewrite (networkFirst_online _ _ _ _ Hnet).
  destruct (status r =? 200) eqn:E; [|reflexivity].
  apply Z.eqb_eq in E. contradiction.
Qed.

Lemma networkFirst_error_status_passes_witness :
  networkFirst (online (mkResponse 500 [] "Internal Server Error")) habits_request
    (mkWorld [(CACHE_NAME, [(key_of habits_request, habits_response)])] [])
  = (Normal (Some (mkResponse 500 [] "Internal Server Error")),
     mkWorld [(CACHE_NAME, [(key_of habits_request, habits_response)])]
             ([] ++ [EvFetch habits_request])).
Proof.
  apply (networkFirst_error_status_passes
           (online (mkResponse 500 [] "Internal Server Error")) habits_request
           (mkWorld [(CACHE_NAME, [(key_of habits_request, habits_response)])] [])
           (mkResponse 500 [] "Internal Server Error")).
  - reflexivity.
  - simpl. discriminate.
Defined.

(** ** Write-through and later lookups *)

Lemma storage_match_none (s : CacheStorage) (k : RequestKey) :
  (forall n c, In (n, c) s -> cache_lookup c k = None) ->
  storage_match s k = None.
Proof.
  induction s as [|[n0 c0] s IH]; intros H; simpl; [reflexivity|].
  rewrite (H n0 c0 (or_introl eq_refl)). apply IH.
  intros n c Hin. apply (H n c). right. exact Hin.
Qed.

Lemma storage_match_update_first (s : CacheStorage) (n : string) (k : RequestKey)
  (r : Response) :
  (forall n' c, In (n', c) s -> n' <> n -> cache_lookup c k = None) ->
  storage_has s n = true ->
  storage_match (storage_update s n (fun c => cache_insert c k r)) k = Some r.
Proof.
  unfold storage_has. induction s as [|[n0 c0] s IH]; simpl; [discriminate|].
  intros Hother. destruct (String.eqb n0 n) eqn:E; simpl.
  - intros _. rewrite cache_lookup_insert, key_eqb_refl. reflexivity.
  - intros Hh. apply String.eqb_neq in E.
    rewrite (Hother n0 c0 (or_introl eq_refl) E). apply IH; [|exact Hh].
    intros n' c Hin. apply Hother. right. exact Hin.
Qed.

Lemma contents_write_through_current_aux (request : Request) (r : Response)
  (s : CacheStorage) :
  contents (write_through request r s) CACHE_NAME
  = cache_insert (contents s CACHE_NAME) (key_of request) r.
Proof.
  unfold write_through.
  rewrite contents_update_same by apply storage_has_open.
  rewrite contents_open. reflexivity.
Qed.

(** When no cache but the current generation holds the key, the lookup
    after a write-through finds the response written. *)
Lemma storage_match_write_through_current (s : CacheStorage) (request : Request)
  (r : Response) :
  (forall n c, In (n, c) s -> n <> CACHE_NAME ->
               cache_lookup c (key_of request) = None) ->
  storage_match (write_through request r s) (key_of request) = Some r.
Proof.
  intros Hother. unfold write_through, storage_open.
  destruct (storage_has s CACHE_NAME) eqn:E.
  - apply storage_match_update_first; assumption.
  - rewrite (storage_update_absent _ _ _ _ E), storage_match_app.
    rewrite storage_match_none.
    + cbn [storage_update]. rewrite String.eqb_refl. cbn [storage_match].
      rewrite cache_lookup_insert, key_eqb_refl. reflexivity.
    + intros n c Hin. apply (Hother n c Hin). intros Heq. subst n.
      assert (Hk : In CACHE_NAME (storage_keys s)).
      { unfold storage_keys. change CACHE_NAME with (fst (CACHE_NAME, c)).
        apply in_map. exact Hin. }
      apply storage_has_In in Hk. congruence.
Qed.

(** X3: the last good answer is what network-first falls back to.  When no
    cache other than the current generation holds the request, the network
    answers a serve with status 200, and the host has completed the write
    that serve started and accepted it (the request is a GET, the response
    has no Vary header with the member [*]), a serve with the network down returns the response of
    the first serve. *)
Theorem networkFirst_then_offline
  (network network' : Request -> FetchOutcome) (request : Request) (w : World)
  (r : Response) (e : JSError) :
  (forall n c, In (n, c) (caches w) -> n <> CACHE_NAME ->
               cache_lookup c (key_of request) = None) ->
  network request = Resolved r ->
  status r = 200 ->
  host_accepts_put (key_of request) r = true ->
  network' request = Rejected e ->
  fst (networkFirst network' request
         (put_settled (CACHE_NAME, key_of request, r)
            (snd (networkFirst network request w))))
  = Normal (Some r).
Proof.
  intros Hother Hnet Hst Hacc Hdown.
  rewrite (networkFirst_online _ _ _ _ Hnet), Hst. cbn [snd Z.eqb Pos.eqb].
  unfold put_settled. cbn [caches trace].
  rewrite (settle_write_through _ _ _ Hacc).
  unfold networkFirst, try_catch, bind, fetch. rewrite Hdown.
  unfold console_error, caches_match. cbn [caches emit fst snd].
  rewrite (storage_match_write_through_current _ _ r Hother). reflexivity.
Qed.

Lemma networkFirst_then_offline_witness :
  fst (networkFirst offline habits_request
         (put_settled (CACHE_NAME, key_of habits_request, habits_response)
            (snd (networkFirst (online habits_response) habits_request
                    (mkWorld [("habit-tracker-v0",
                               [(key_of logo_request, logo_response)])] [])))))
  = Normal (Some habits_response).
Proof.
  apply (networkFirst_then_offline (online habits_response) offline habits_request
           (mkWorld [("habit-tracker-v0", [(key_of logo_request, logo_response)])] [])
           habits_response (TypeError "Failed to fetch")).
  - intros n c [Heq|[]] _. inversion Heq. reflexivity.
  - reflexivity.
  - reflexivity.
  - reflexivity.
  - reflexivity.
Defined.

(** X4: [caches.match] searches every cache in creation order, so an older
    cache shadows the current generation.  When the current generation does
    not exist yet and an older cache holds the request, the fallback of
    network-first returns the older entry, before and after the write of
    the fresh 200 response has completed; when the host accepted that
    write, the current generation holds the fresh response all the same. *)
Theorem networkFirst_older_cache_shadows
  (network network' : Request -> FetchOutcome) (request : Request) (w : World)
  (r r0 : Response) (e : JSError) :
  storage_has (caches w) CACHE_NAME = false ->
  storage_match (caches w) (key_of request) = Some r0 ->
  network request = Resolved r ->
  status r = 200 ->
  network' request = Rejected e ->
  fst (networkFirst network' request (snd (networkFirst network request w)))
  = Normal (Some r0)
  /\ fst (networkFirst network' request
            (put_settled (CACHE_NAME, key_of request, r)
               (snd (networkFirst network request w))))
     = Normal (Some r0)
  /\ (host_accepts_put (key_of request) r = true ->
      cache_lookup
        (contents
           (caches (put_settled (CACHE_NAME, key_of request, r)
                      (snd (networkFirst network request w))))
           CACHE_NAME)
        (key_of request)
      = Some r).
Proof.
  intros Hno Hold Hnet Hst Hdown.
  rewrite (networkFirst_online _ _ _ _ Hnet), Hst. cbn [snd Z.eqb Pos.eqb].
  assert (Hfall : forall s t,
            storage_match s (key_of request) = Some r0 ->
            fst (networkFirst network' request (mkWorld s t)) = Normal (Some r0)).
  { intros s t Hs. unfold networkFirst, try_catch, bind, fetch. rewrite Hdown.
    unfold console_error, caches_match. cbn [caches emit fst snd].
    rewrite Hs. reflexivity. }
  assert (Hopen : storage_match (storage_open (caches w) CACHE_NAME) (key_of request)
                  = Some r0).
  { unfold storage_open. rewrite Hno, storage_match_app, Hold. reflexivity. }
  split; [apply Hfall; exact Hopen|]. split.
  - apply Hfall. cbn [caches]. unfold settle_put.
    destruct (host_accepts_put (key_of request) r); [|exact Hopen].
    unfold storage_open. rewrite Hno.
    rewrite (storage_update_absent _ _ _ _ Hno), storage_match_app, Hold.
    reflexivity.
  - intros Hacc. unfold put_settled. cbn [caches trace].
    rewrite (settle_write_through _ _ _ Hacc), contents_write_through_current_aux.
    rewrite cache_lookup_insert, key_eqb_refl. reflexivity.
Qed.

Lemma networkFirst_older_cache_shadows_witness :
  fst (networkFirst offline habits_request
         (snd (networkFirst (online (mkResponse 200 [] "[1]")) habits_request
                 old_world)))
  = Normal (Some habits_response)
  /\ fst (networkFirst offline habits_request
            (put_settled (CACHE_NAME, key_of habits_request, mkResponse 200 [] "[1]")
               (snd (networkFirst (online (mkResponse 200 [] "[1]")) habits_request
                       old_world))))
     = Normal (Some habits_response)
  /\ (host_accepts_put (key_of habits_request) (mkResponse 200 [] "[1]") = true ->
      cache_lookup
        (contents
           (caches (put_settled
                      (CACHE_NAME, key_of habits_request, mkResponse 200 [] "[1]")
                      (snd (networkFirst (online (mkResponse 200 [] "[1]"))
                              habits_request old_world))))
           CACHE_NAME)
        (key_of habits_request)
      = Some (mkResponse 200 [] "[1]")).
Proof.
  apply (networkFirst_older_cache_shadows (online (mkResponse 200 [] "[1]")) offline
           habits_request old_world (mkResponse 200 [] "[1]") habits_response
           (TypeError "Failed to fetch")); reflexivity.
Defined.

Example fresh_response_accepted :
  host_accepts_put (key_of habits_request) (mkResponse 200 [] "[1]") = true.
Proof. reflexivity. Qed.

(** ** What a serve leaves alone *)

(** X5: cache-first passes on what it does not persist.  On a miss, a
    response whose status is not 200, or the response to a request that is
    not a GET, is returned to the caller and the caches are not touched. *)
Theorem cacheFirst_unpersisted_passes
  (resolve_url : string -> string) (network : Request -> FetchOutcome)
  (request : Request) (w : World) (r : Response) :
  storage_match (caches w) (key_of request) = None ->
  network request = Resolved r ->
  status r <> 200 \/ method request <> "GET"%string ->
  cacheFirst resolve_url network request w
  = (Normal (Some r), mkWorld (caches w) (trace w ++ [EvFetch request])).
Proof.
  intros Hm Hnet Hno. rewrite (cacheFirst_miss_online _ _ _ _ _ Hm Hnet).
  unfold cacheFirst_persists.
  destruct (status r =? 200) eqn:Es; [|reflexivity].
  destruct (String.eqb (method request) "GET") eqn:Eg; [|reflexivity].
  apply Z.eqb_eq in Es. apply String.eqb_eq in Eg.
  destruct Hno; contradiction.
Qed.

Lemma cacheFirst_unpersisted_passes_witness :
  cacheFirst sample_resolve (online (mkResponse 404 [] "Not Found"))
    logo_request empty_world
  = (Normal (Some (mkResponse 404 [] "Not Found")),
     mkWorld [] ([] ++ [EvFetch logo_request])).
Proof.
  apply (cacheFirst_unpersisted_passes sample_resolve
           (online (mkResponse 404 [] "Not Found")) logo_request empty_world
           (mkResponse 404 [] "Not Found")).
  - reflexivity.
  - reflexivity.
  - left. simpl. discriminate.
Defined.

(** A serve leaves the storage as it is or opens the current generation,
    and starts at most one write, under its own request. *)
Lemma onfetch_caches
  (url_pathname resolve_url : string -> string)
  (network : Request -> FetchOutcome) (request : Request) (w : World) :
  (caches (snd (onfetch url_pathname resolve_url network request w)) = caches w
   \/ caches (snd (onfetch url_pathname resolve_url network request w))
      = storage_open (caches w) CACHE_NAME)
  /\
  (puts (trace (snd (onfetch url_pathname resolve_url network request w)))
   = puts (trace w) ++ []
   \/ exists r,
        puts (trace (snd (onfetch url_pathname resolve_url network request w)))
        = puts (trace w) ++ [(CACHE_NAME, key_of request, r)]).
Proof.
  unfold onfetch. destruct (is_api url_pathname request).
  - destruct (network request) as [r|e] eqn:Hn.
    + rewrite (networkFirst_online _ _ _ _ Hn).
      destruct (status r =? 200); cbn [snd caches trace].
      * split; [right; reflexivity|]. right. exists r.
        rewrite !puts_app. simpl. rewrite app_nil_r. reflexivity.
      * split; [left; reflexivity|]. left. rewrite puts_app. reflexivity.
    + unfold networkFirst, try_catch, bind, fetch. rewrite Hn.
      unfold console_error, caches_match. cbn [caches emit fst snd].
      destruct (storage_match (caches w) (key_of request));
        (split; [left; reflexivity|]); left; simpl;
        rewrite !puts_app; simpl; rewrite !app_nil_r; reflexivity.
  - destruct (storage_match (caches w) (key_of request)) as [c|] eqn:Hm.
    + unfold cacheFirst, bind, caches_match. rewrite Hm. cbn [snd].
      split; left; [reflexivity | rewrite app_nil_r; reflexivity].
    + destruct (network request) as [r|e] eqn:Hn.
      * rewrite (cacheFirst_miss_online _ _ _ _ _ Hm Hn).
        destruct (cacheFirst_persists request r); cbn [snd caches trace].
        -- split; [right; reflexivity|]. right. exists r.
           rewrite !puts_app. simpl. rewrite app_nil_r. reflexivity.
        -- split; [left; reflexivity|]. left. rewrite puts_app. reflexivity.
      * rewrite (cacheFirst_miss_offline _ _ _ _ _ Hm Hn). cbn [snd caches trace].
        split; [left; reflexivity|]. left.
        rewrite !puts_app. simpl. rewrite !app_nil_r. reflexivity.
Qed.

(** A put into the current generation that completes changes no other
    cache and no other key. *)
Lemma settle_put_frame (k : RequestKey) (r : Response) (s : CacheStorage) :
  (forall n, n <> CACHE_NAME ->
     contents (settle_put (CACHE_NAME, k, r) s) n = contents s n)
  /\
  (forall k', k' <> k ->
     cache_lookup (contents (settle_put (CACHE_NAME, k, r) s) CACHE_NAME) k'
     = cache_lookup (contents s CACHE_NAME) k').
Proof.
  unfold settle_put. destruct (host_accepts_put k r); [|split; reflexivity].
  split.
  - intros n Hne. apply contents_update_other. congruence.
  - intros k' Hne. destruct (storage_has s CACHE_NAME) eqn:Hh.
    + rewrite (contents_update_same _ _ _ Hh), cache_lookup_insert.
      destruct (key_eqb k k') eqn:E; [|reflexivity].
      apply key_eqb_eq in E. congruence.
    + rewrite (storage_update_missing _ _ _ Hh). reflexivity.
Qed.

(** X6: a serve changes at most the entry of its own request in the current
    generation.  The entries of every other cache, and the entries of the
    current generation under every other key, are what they were, when the
    serve returns and also when the write it started has completed. *)
Theorem onfetch_frame
  (url_pathname resolve_url : string -> string)
  (network : Request -> FetchOutcome) (request : Request) (w : World) :
  (forall n, n <> CACHE_NAME ->
     contents (caches (snd (onfetch url_pathname resolve_url network request w))) n
     = contents (caches w) n)
  /\
  (forall k, k <> key_of request ->
     cache_lookup
       (contents (caches (snd (onfetch url_pathname resolve_url network request w)))
                 CACHE_NAME) k
     = cache_lookup (contents (caches w) CACHE_NAME) k)
  /\
  exists ps,
    puts (trace (snd (onfetch url_pathname resolve_url network request w)))
    = puts (trace w) ++ ps /\
    (forall n, n <> CACHE_NAME ->
       contents
         (settle_puts ps
            (caches (snd (onfetch url_pathname resolve_url network request w)))) n
       = contents (caches w) n) /\
    (forall k, k <> key_of request ->
       cache_lookup
         (contents
            (settle_puts ps
               (caches (snd (onfetch url_pathname resolve_url network request w))))
            CACHE_NAME) k
       = cache_lookup (contents (caches w) CACHE_NAME) k).
Proof.
  destruct (onfetch_caches url_pathname resolve_url network request w)
    as [Hc Hp].
  assert (H1 : forall n,
             contents (caches (snd (onfetch url_pathname resolve_url network
                                      request w))) n
             = contents (caches w) n).
  { intros n. destruct Hc as [-> | ->]; [reflexivity | apply contents_open]. }
  split; [intros n _; apply H1|].
  split; [intros k _; rewrite H1; reflexivity|].
  destruct Hp as [Hp|[r Hp]].
  - exists []. split; [exact Hp|]. cbn [settle_puts fold_left].
    split; [intros n _; apply H1 | intros k _; rewrite H1; reflexivity].
  - exists [(CACHE_NAME, key_of request, r)]. split; [exact Hp|].
    cbn [settle_puts fold_left].
    destruct (settle_put_frame (key_of request) r
                (caches (snd (onfetch url_pathname resolve_url network request w))))
      as [F1 F2].
    split.
    + intros n Hne. rewrite (F1 n Hne). apply H1.
    + intros k Hne. rewrite (F2 k Hne), H1. reflexivity.
Qed.

Lemma storage_keys_open (s : CacheStorage) (n : string) :
  storage_keys (storage_open s n)
  = if storage_has s n then storage_keys s else storage_keys s ++ [n].
Proof.
  unfold storage_open. destruct (storage_has s n); [reflexivity|].
  unfold storage_keys. rewrite map_app. reflexivity.
Qed.

(** X7: a serve deletes no cache and creates at most the current
    generation: the names of the caches afterwards are the names before,
    followed by the name of the current generation when it was missing and
    the serve opened it to write a response.  A storage with one cache per
    name stays so. *)
Theorem onfetch_keeps_caches
  (url_pathname resolve_url : string -> string)
  (network : Request -> FetchOutcome) (request : Request) (w : World) :
  (storage_keys (caches (snd (onfetch url_pathname resolve_url network request w)))
   = storage_keys (caches w)
   \/ (storage_has (caches w) CACHE_NAME = false /\
       storage_keys (caches (snd (onfetch url_pathname resolve_url network request w)))
       = storage_keys (caches w) ++ [CACHE_NAME]))
  /\ (well_formed (caches w) ->
      well_formed (caches (snd (onfetch url_pathname resolve_url network request w)))).
Proof.
  destruct (onfetch_caches url_pathname resolve_url network request w)
    as [[H|H] _]; rewrite H.
  - split; [left; reflexivity | auto].
  - split.
    + rewrite storage_keys_open.
      destruct (storage_has (caches w) CACHE_NAME);
        [left; reflexivity | right; split; reflexivity].
    + apply well_formed_open.
Qed.

Lemma onfetch_keeps_caches_witness :
  well_formed
    (caches (snd (onfetch sample_pathname sample_resolve (online index_response)
                    index_request old_world))).
Proof.
  apply (proj2 (onfetch_keeps_caches sample_pathname sample_resolve
                  (online index_response) index_request old_world)).
  exact old_world_well_formed.
Defined.

(** ** The application shell, from install to the offline page *)

Lemma storage_get_In (s : CacheStorage) (n : string) (c : Cache) :
  storage_get s n = Some c -> In (n, c) s.
Proof.
  induction s as [|[n0 c0] s IH]; simpl; [discriminate|].
  destruct (String.eqb n0 n) eqn:E.
  - apply String.eqb_eq in E. intros H. inversion H. subst. left. reflexivity.
  - intros H. right. apply IH. exact H.
Qed.

Lemma contents_stored (s : CacheStorage) (n : string) (k : RequestKey)
  (r : Response) :
  cache_lookup (contents s n) k = Some r -> stored s k r.
Proof.
  unfold contents. destruct (storage_get s n) as [c|] eqn:G; [|discriminate].
  intros H. exists n, c. split; [apply storage_get_In; exact G | exact H].
Qed.

(** After a successful install the current generation holds, under each
    URL of the manifest, the response fetched for it. *)
Lemma install_stores_manifest
  (resolve_url : string -> string) (network : Request -> FetchOutcome)
  (w w1 : World) (u : string) :
  install resolve_url network w = (Normal tt, w1) ->
  In u STATIC_CACHE_URLS ->
  exists r,
    network (request_of_url resolve_url u) = Resolved r /\
    ok r = true /\
    cache_lookup (contents (caches w1) CACHE_NAME)
                 (key_of (request_of_url resolve_url u))
    = Some r.
Proof.
  intros Hinst Hin. pose proof (install_run resolve_url network w) as H.
  cbv zeta in H.
  destruct (forallb (fun u => fetched_ok (network (request_of_url resolve_url u)))
              STATIC_CACHE_URLS) eqn:E.
  - destruct H as [_ Hc]. rewrite Hinst in Hc. cbn [snd] in Hc.
    rewrite forallb_forall in E. specialize (E u Hin).
    destruct (network (request_of_url resolve_url u)) as [r|e] eqn:Hn;
      [|discriminate].
    exists r. split; [reflexivity|]. split; [exact E|]. rewrite Hc.
    apply put_all_storage_lookup.
    + apply storage_has_open.
    + apply in_map_iff. exists u. split; [|exact Hin].
      unfold outcome_of. rewrite Hn. reflexivity.
    + apply outcomes_consistent.
  - rewrite Hinst in H. discriminate.
Qed.

(** X8: once the install step has succeeded, a page request (its accept
    header includes text/html) that misses the cache while the network is
    down is answered with a stored copy of the application shell: the
    offline page is there as soon as the worker is installed. *)
Theorem offline_page_after_install
  (resolve_url : string -> string) (network0 network : Request -> FetchOutcome)
  (w0 w1 : World) (request : Request) (a : string) (e : JSError) :
  install resolve_url network0 w0 = (Normal tt, w1) ->
  storage_match (caches w1) (key_of request) = None ->
  network request = Rejected e ->
  headers_get (headers request) "accept" = Some a ->
  includes a "text/html" = true ->
  exists shell,
    stored (caches w1) (key_of (request_of_url resolve_url "./index.html")) shell /\
    fst (cacheFirst resolve_url network request w1) = Normal (Some shell).
Proof.
  intros Hinst Hm Hn Ha Hhtml.
  destruct (install_stores_manifest resolve_url network0 w0 w1 "./index.html" Hinst)
    as (r & _ & _ & Hl); [left; reflexivity|].
  apply contents_stored in Hl.
  destruct (stored_storage_match _ _ _ Hl) as [shell Hs].
  exists shell. split; [apply storage_match_stored; exact Hs|].
  rewrite (cacheFirst_miss_offline _ _ _ _ _ Hm Hn), Ha. cbn [fst].
  rewrite Hhtml, Hs. reflexivity.
Qed.

Lemma offline_page_after_install_witness :
  exists shell,
    stored (caches (snd (install sample_resolve (online asset) old_world)))
           (key_of (request_of_url sample_resolve "./index.html")) shell /\
    fst (cacheFirst sample_resolve offline about_request
           (snd (install sample_resolve (online asset) old_world)))
    = Normal (Some shell).
Proof.
  apply (offline_page_after_install sample_resolve (online asset) offline old_world
           (snd (install sample_resolve (online asset) old_world)) about_request
           "text/html,application/xhtml+xml" (TypeError "Failed to fetch"));
    reflexivity.
Defined.

(** ** More on activation *)

Lemma deletions_app (t1 t2 : list Event) :
  deletions (t1 ++ t2) = deletions t1 ++ deletions t2.
Proof.
  induction t1 as [|ev t1 IH]; simpl; [reflexivity|].
  destruct ev; simpl; rewrite IH; reflexivity.
Qed.

Lemma forEach_delete_trace (names : list string) (w : World) :
  deletions (trace (snd (forEach delete_stale names w)))
  = deletions (trace w) ++ names.
Proof.
  revert w. induction names as [|n names IH]; intros w.
  - simpl. rewrite app_nil_r. reflexivity.
  - cbn [forEach]. unfold bind. rewrite delete_stale_run, IH. cbn [trace].
    rewrite !deletions_app. simpl. rewrite app_nil_r, <- app_assoc. reflexivity.
Qed.

Lemma activate_unfold (w : World) :
  activate w
  = match forEach delete_stale (filter stale (storage_keys (caches w))) w with
    | (Normal _, w') => clients_claim w'
    | (Throw e, w') => (Throw e, w')
    end.
Proof. reflexivity. Qed.

(** X9: the activate step, on any storage.  It completes; the caches left
    are the caches that were there, in the same order and with the same
    entries, minus every cache whose name starts with "habit-tracker-" and
    is not the current name: a cache is found afterwards exactly when it was
    there and is not stale. *)
Theorem activate_keeps_exactly_unstale (w : World) :
  fst (activate w) = Normal tt /\
  caches (snd (activate w)) = filter (fun e => negb (stale (fst e))) (caches w) /\
  forall n, storage_get (caches (snd (activate w))) n
            = if stale n then None else storage_get (caches w) n.
Proof.
  destruct (activate_caches w) as [H1 H2].
  split; [exact H1|]. split; [exact H2|].
  intros n. rewrite H2.
  rewrite (storage_get_filter (fun n => negb (stale n)) (caches w) n).
  destruct (stale n); reflexivity.
Qed.

Lemma activate_deletes_then_claims_aux (w : World) :
  deletions (trace (snd (activate w)))
  = deletions (trace w) ++ filter stale (storage_keys (caches w))
  /\ exists t, trace (snd (activate w)) = t ++ [EvClientsClaim]
               /\ deletions t = deletions (trace (snd (activate w))).
Proof.
  rewrite activate_unfold.
  pose proof (forEach_delete_trace (filter stale (storage_keys (caches w))) w) as Ht.
  destruct (forEach_delete_caches (filter stale (storage_keys (caches w))) w)
    as [Hr _].
  destruct (forEach delete_stale (filter stale (storage_keys (caches w))) w)
    as [[[]|e] w'] eqn:E; cbn [fst snd] in *; [|discriminate].
  unfold clients_claim, emit. cbn [snd trace]. split.
  - rewrite deletions_app, Ht. simpl. rewrite app_nil_r. reflexivity.
  - exists (trace w'). split; [reflexivity|].
    rewrite deletions_app. simpl. rewrite app_nil_r. reflexivity.
Qed.

(** X10: the activate step asks for the deletion of each stale cache once,
    in creation order, and of no other cache, and takes control of the
    clients after the deletions, as the last thing it does. *)
Theorem activate_deletes_then_claims (w : World) :
  deletions (trace (snd (activate w)))
  = deletions (trace w) ++ filter stale (storage_keys (caches w))
  /\ exists t, trace (snd (activate w)) = t ++ [EvClientsClaim]
               /\ deletions t = deletions (trace (snd (activate w))).
Proof. exact (activate_deletes_then_claims_aux w). Qed.

Lemma filter_idempotent {A} (f : A -> bool) (l : list A) :
  filter f (filter f l) = filter f l.
Proof.
  rewrite filter_twice. apply filter_ext. intros a. destruct (f a); reflexivity.
Qed.

Lemma filter_stale_unstale (s : CacheStorage) :
  filter stale (storage_keys (filter (fun e => negb (stale (fst e))) s)) = [].
Proof.
  rewrite (storage_keys_filter (fun n => negb (stale n))), filter_twice.
  induction (storage_keys s) as [|n l IH]; simpl; [reflexivity|].
  destruct (stale n); simpl; exact IH.
Qed.

(** X11: activating twice is activating once: the second run leaves the
    storage as the first left it and asks for no deletion. *)
Theorem activate_idempotent (w : World) :
  caches (snd (activate (snd (activate w)))) = caches (snd (activate w))
  /\ deletions (trace (snd (activate (snd (activate w)))))
     = deletions (trace (snd (activate w))).
Proof.
  split.
  - destruct (activate_caches (snd (activate w))) as [_ H2]. rewrite H2.
    destruct (activate_caches w) as [_ H1]. rewrite H1.
    apply filter_idempotent.
  - destruct (activate_deletes_then_claims_aux (snd (activate w))) as [H _].
    rewrite H. destruct (activate_caches w) as [_ H1]. rewrite H1.
    rewrite filter_stale_unstale. apply app_nil_r.
Qed.

Lemma generation_count_zero (s : CacheStorage) (n : string) :
  storage_has s n = false -> generation_count s n = 0%nat.
Proof.
  intros H. unfold generation_count.
  assert (Hn : ~ In n (storage_keys s)).
  { intros Hin. apply storage_has_In in Hin. congruence. }
  induction (storage_keys s) as [|a l IH]; simpl; [reflexivity|].
  destruct (String.eqb n a) eqn:E.
  - apply String.eqb_eq in E. subst a. exfalso. apply Hn. left. reflexivity.
  - apply IH. intros Hin. apply Hn. right. exact Hin.
Qed.

(** X12: the activate step creates no cache.  On a storage without the
    current generation (no install has opened it, or it was deleted since)
    there is no current generation after activation either. *)
Theorem activate_creates_nothing (w : World) :
  (forall n, In n (storage_keys (caches (snd (activate w)))) ->
             In n (storage_keys (caches w)))
  /\ (storage_has (caches w) CACHE_NAME = false ->
      generation_count (caches (snd (activate w))) CACHE_NAME = 0%nat).
Proof.
  destruct (activate_caches w) as [_ H]. rewrite H.
  rewrite (storage_keys_filter (fun n => negb (stale n))). split.
  - intros n Hin. apply filter_In in Hin. tauto.
  - intros Hno. apply generation_count_zero.
    unfold storage_has in *.
    rewrite (storage_get_filter (fun n => negb (stale n))), stale_current.
    cbn [negb].
    destruct (storage_get (caches w) CACHE_NAME); [discriminate | reflexivity].
Qed.

Lemma activate_creates_nothing_witness :
  generation_count (caches (snd (activate old_world))) CACHE_NAME = 0%nat.
Proof.
  apply (proj2 (activate_creates_nothing old_world)). reflexivity.
Defined.

(** ** More on installation *)

Lemma put_all_trace (cache : string) (l : list (Request * FetchOutcome)) (w : World) :
  exists evs,
    trace (snd (put_all cache l w)) = trace w ++ evs /\ ~ In EvSkipWaiting evs.
Proof.
  revert w. induction l as [|[request [r|e]] l IH]; intros w.
  - exists []. split; [simpl; rewrite app_nil_r; reflexivity | intros []].
  - cbn [put_all]. unfold bind, cache_store.
    destruct (IH (emit (EvCachePut cache (key_of request) r)
                    (mkWorld (storage_update (caches w) cache
                                (fun c => cache_insert c (key_of request) r))
                             (trace w)))) as (evs & Ht & Hn).
    exists (EvCachePut cache (key_of request) r :: evs). split.
    + rewrite Ht. cbn [emit trace]. rewrite <- app_assoc. reflexivity.
    + intros [H|H]; [discriminate | exact (Hn H)].
  - cbn [put_all]. apply IH.
Qed.

Lemma put_all_storage_contents_other (cache n : string)
  (l : list (Request * FetchOutcome)) (s : CacheStorage) :
  n <> cache ->
  contents (put_all_storage cache l s) n = contents s n.
Proof.
  intros Hne. revert s. induction l as [|[request [r|e]] l IH]; intros s; simpl.
  - reflexivity.
  - rewrite IH. unfold contents.
    rewrite storage_get_update_other by congruence. reflexivity.
  - apply IH.
Qed.

Lemma put_all_storage_lookup_other (cache : string)
  (l : list (Request * FetchOutcome)) (s : CacheStorage) (k : RequestKey) :
  storage_has s cache = true ->
  (forall request r, In (request, Resolved r) l -> key_of request <> k) ->
  cache_lookup (contents (put_all_storage cache l s) cache) k
  = cache_lookup (contents s cache) k.
Proof.
  revert s. induction l as [|[request [r|e]] l IH]; intros s Hhas Hk; simpl.
  - reflexivity.
  - rewrite IH.
    + rewrite (contents_update_same _ _ _ Hhas), cache_lookup_insert.
      destruct (key_eqb (key_of request) k) eqn:E; [|reflexivity].
      apply key_eqb_eq in E. exfalso.
      apply (Hk request r); [left; reflexivity | exact E].
    + rewrite storage_has_update. exact Hhas.
    + intros q r' Hin. apply (Hk q r'). right. exact Hin.
  - apply IH; [exact Hhas|]. intros q r' Hin. apply (Hk q r'). right. exact Hin.
Qed.

(** X13: the install step forces the waiting worker to activate exactly
    when it succeeded, and it succeeds exactly when every URL of the
    manifest was fetched with an ok response.  [skipWaiting] is then the
    last thing the step does; a failed install never calls it. *)
Theorem install_skipWaiting_iff_success
  (resolve_url : string -> string) (network : Request -> FetchOutcome)
  (w : World) :
  exists new,
    trace (snd (install resolve_url network w)) = trace w ++ new /\
    (fst (install resolve_url network w) = Normal tt <->
     forall u, In u STATIC_CACHE_URLS ->
               fetched_ok (network (request_of_url resolve_url u)) = true) /\
    (In EvSkipWaiting new <-> fst (install resolve_url network w) = Normal tt) /\
    (fst (install resolve_url network w) = Normal tt ->
     exists mid, new = mid ++ [EvSkipWaiting]).
Proof.
  rewrite install_unfold, cache_addAll_run.
  destruct (forallb (fun u => fetched_ok (network (request_of_url resolve_url u)))
              STATIC_CACHE_URLS) eqn:E.
  - match goal with
    | |- context [put_all CACHE_NAME ?l ?w0] =>
        destruct (put_all_run CACHE_NAME l w0) as [H1 _];
        destruct (put_all_trace CACHE_NAME l w0) as (evs & Ht & Hn);
        destruct (put_all CACHE_NAME l w0) as [[[]|e] w'] eqn:P;
        cbn [fst snd] in H1, Ht; [|discriminate]
    end.
    unfold skipWaiting, emit. cbn [fst snd trace]. rewrite Ht. cbn [trace].
    eexists. split.
    + rewrite <- !app_assoc. reflexivity.
    + split; [split; [intros _; apply forallb_forall; exact E | reflexivity]|].
      split.
      * split; [reflexivity|]. intros _. apply in_or_app. right.
        apply in_or_app. right. apply in_or_app. right. left. reflexivity.
      * intros _. eexists. rewrite !app_assoc. reflexivity.
  - cbn [fst snd trace]. eexists. split.
    + rewrite <- app_assoc. reflexivity.
    + split.
      { split; [discriminate|]. intros Hall. apply forallb_forall in Hall.
        congruence. }
      split; [|discriminate].
      split; [|discriminate]. intros [H|H]; [discriminate|].
      apply in_map_iff in H. destruct H as (u & Hu & _). discriminate.
Qed.

(** X14: the install step touches the current generation only, and there
    only the keys of the manifest.  Whether it succeeds or fails, every
    other cache keeps its entries, and the current generation keeps what it
    held under every key that is not the request of a manifest URL. *)
Theorem install_frame
  (resolve_url : string -> string) (network : Request -> FetchOutcome)
  (w : World) :
  (forall n, n <> CACHE_NAME ->
     contents (caches (snd (install resolve_url network w))) n
     = contents (caches w) n)
  /\
  (forall k,
     (forall u, In u STATIC_CACHE_URLS -> key_of (request_of_url resolve_url u) <> k) ->
     cache_lookup (contents (caches (snd (install resolve_url network w))) CACHE_NAME) k
     = cache_lookup (contents (caches w) CACHE_NAME) k).
Proof.
  pose proof (install_run resolve_url network w) as H. cbv zeta in H.
  destruct (forallb (fun u => fetched_ok (network (request_of_url resolve_url u)))
              STATIC_CACHE_URLS).
  - destruct H as [_ Hc]. rewrite Hc. split.
    + intros n Hne. rewrite put_all_storage_contents_other by exact Hne.
      apply contents_open.
    + intros k Hk. rewrite put_all_storage_lookup_other.
      * rewrite contents_open. reflexivity.
      * apply storage_has_open.
      * intros q r Hin. apply in_map_iff in Hin. destruct Hin as (u & Hu & Hin).
        unfold outcome_of in Hu. inversion Hu. subst q. apply Hk. exact Hin.
  - rewrite H. cbn [snd caches]. split; intros; rewrite contents_open; reflexivity.
Qed.

(** ** The sync listener *)

Lemma posted_app (t1 t2 : list PageEvent) :
  posted (t1 ++ t2) = posted t1 ++ posted t2.
Proof.
  induction t1 as [|ev t1 IH]; simpl; [reflexivity|].
  destruct ev; simpl; rewrite IH; reflexivity.
Qed.

Lemma forEach_postMessage (clients : list Client) (m : Message) (t : list PageEvent) :
  page_forEach (fun client => page_do (PgPostMessage client m)) clients t
  = (Normal tt, t ++ map (fun c => PgPostMessage c m) clients).
Proof.
  revert t. induction clients as [|c clients IH]; intros t.
  - simpl. rewrite app_nil_r. reflexivity.
  - cbn [page_forEach map]. unfold page_bind, page_do. rewrite IH.
    rewrite <- app_assoc. reflexivity.
Qed.

Lemma posted_messages (clients : list Client) (m : Message) :
  posted (map (fun c => PgPostMessage c m) clients) = map (fun c => (c, m)) clients.
Proof.
  induction clients as [|c clients IH]; simpl; [reflexivity | rewrite IH; reflexivity].
Qed.

Lemma syncHabitsData_run (matchAll : Completion (list Client)) (t : list PageEvent) :
  syncHabitsData matchAll t
  = (Normal tt,
     match matchAll with
     | Normal clients =>
         (t ++ map (fun c => PgPostMessage c (mkMessage "SYNC_DATA")) clients)
           ++ [PgConsoleLog "数据同步完成"]
     | Throw _ => t ++ [PgConsoleError "数据同步失败:"]
     end).
Proof.
  unfold syncHabitsData, page_try, page_bind, page_lift.
  destruct matchAll as [clients|e]; [|reflexivity].
  rewrite forEach_postMessage. reflexivity.
Qed.

(** X15: the sync listener is a fan-out.  For the tag "sync-habits-data"
    every client that [matchAll] resolved with is posted the message
    [{ type: 'SYNC_DATA' }] once, in order; for any other tag, and when
    [matchAll] rejects, nothing is posted.  The listener never throws. *)
Theorem onsync_fan_out (tag : string) (matchAll : Completion (list Client))
  (t : list PageEvent) :
  fst (onsync tag matchAll t) = Normal tt /\
  posted (snd (onsync tag matchAll t))
  = posted t ++
    (if String.eqb tag "sync-habits-data"
     then match matchAll with
          | Normal clients => map (fun c => (c, mkMessage "SYNC_DATA")) clients
          | Throw _ => []
          end
     else []).
Proof.
  unfold onsync. destruct (String.eqb tag "sync-habits-data").
  - rewrite syncHabitsData_run. cbn [fst snd]. split; [reflexivity|].
    destruct matchAll as [clients|e].
    + rewrite !posted_app, posted_messages. simpl. rewrite app_nil_r. reflexivity.
    + rewrite posted_app. reflexivity.
  - split; [reflexivity|]. simpl. rewrite app_nil_r. reflexivity.
Qed.

(** ** The notificationclick listener *)

Lemma focus_or_open_none (clientList : list Client) (target : JSValue)
  (openWindow : bool) (t : list PageEvent) :
  (forall c, In c clientList ->
             url_strict_eq (client_url c) target && has_focus c = false) ->
  focus_or_open clientList target openWindow t
  = (Normal tt, t ++ (if openWindow then [PgOpenWindow target] else [])).
Proof.
  induction clientList as [|c l IH]; intros H; cbn [focus_or_open].
  - destruct openWindow; [reflexivity|]. unfold page_ret. rewrite app_nil_r.
    reflexivity.
  - rewrite (H c (or_introl eq_refl)). apply IH.
    intros c' Hin. apply H. right. exact Hin.
Qed.

Lemma focus_or_open_first (before after : list Client) (c : Client)
  (target : JSValue) (openWindow : bool) (t : list PageEvent) :
  (forall c', In c' before ->
              url_strict_eq (client_url c') target && has_focus c' = false) ->
  url_strict_eq (client_url c) target && has_focus c = true ->
  focus_or_open (before ++ c :: after) target openWindow t
  = (Normal tt, t ++ [PgFocus c]).
Proof.
  induction before as [|b l IH]; intros H Hc; cbn [focus_or_open app].
  - rewrite Hc. reflexivity.
  - rewrite (H b (or_introl eq_refl)). apply IH; [|exact Hc].
    intros c' Hin. apply H. right. exact Hin.
Qed.

(** X16: a click on a notification closes it and focuses the first window
    client that shows the notification's URL (its [url] is that very
    string, and it can be focused).  Later clients are not looked at and
    no window is opened, whether or not [clients.openWindow] exists. *)
Theorem notificationclick_focuses_first
  (notification_data : JSValue) (target : string)
  (before after : list Client) (c : Client) (openWindow : bool)
  (t : list PageEvent) :
  get_property notification_data "url" = Normal (JString target) ->
  (forall c', In c' before -> shows target c' = false) ->
  shows target c = true ->
  onnotificationclick notification_data (Normal (before ++ c :: after)) openWindow t
  = (Normal tt, (t ++ [PgNotificationClose]) ++ [PgFocus c]).
Proof.
  intros Hurl Hbefore Hc.
  unfold onnotificationclick, page_bind, page_do, page_lift. rewrite Hurl.
  apply focus_or_open_first; assumption.
Qed.

Lemma notificationclick_focuses_first_witness :
  onnotificationclick
    (JObject [("url", JString "https://habits.example/stats.html")])
    (Normal ([tab_index] ++ tab_stats :: [tab_stats])) true []
  = (Normal tt, ([] ++ [PgNotificationClose]) ++ [PgFocus tab_stats]).
Proof.
  apply (notificationclick_focuses_first
           (JObject [("url", JString "https://habits.example/stats.html")])
           "https://habits.example/stats.html" [tab_index] [tab_stats] tab_stats
           true []).
  - reflexivity.
  - intros c' [Heq|[]]. subst c'. reflexivity.
  - reflexivity.
Defined.

Lemma notificationclick_opens_window_aux
  (notification_data target : JSValue) (clientList : list Client)
  (openWindow : bool) (t : list PageEvent) :
  get_property notification_data "url" = Normal target ->
  (forall c, In c clientList ->
             url_strict_eq (client_url c) target && has_focus c = false) ->
  onnotificationclick notification_data (Normal clientList) openWindow t
  = (Normal tt,
     (t ++ [PgNotificationClose])
       ++ (if openWindow then [PgOpenWindow target] else [])).
Proof.
  intros Hurl Hnone.
  unfold onnotificationclick, page_bind, page_do, page_lift. rewrite Hurl.
  apply focus_or_open_none. exact Hnone.
Qed.

(** X17: when no window client shows the notification's URL, the click
    closes the notification and opens one new window at that URL, provided
    [clients.openWindow] exists; without it the click only closes the
    notification.  A target that is not a string matches no client. *)
Theorem notificationclick_opens_window
  (notification_data target : JSValue) (clientList : list Client)
  (openWindow : bool) (t : list PageEvent) :
  get_property notification_data "url" = Normal target ->
  (forall c, In c clientList ->
             url_strict_eq (client_url c) target && has_focus c = false) ->
  onnotificationclick notification_data (Normal clientList) openWindow t
  = (Normal tt,
     (t ++ [PgNotificationClose])
       ++ (if openWindow then [PgOpenWindow target] else [])).
Proof. exact (notificationclick_opens_window_aux notification_data target clientList openWindow t). Qed.

Lemma notificationclick_opens_window_witness :
  onnotificationclick (JObject [("url", JString "./index.html")])
    (Normal [tab_index; tab_stats]) true []
  = (Normal tt,
     ([] ++ [PgNotificationClose]) ++ [PgOpenWindow (JString "./index.html")]).
Proof.
  apply (notificationclick_opens_window (JObject [("url", JString "./index.html")])
           (JString "./index.html") [tab_index; tab_stats] true []).
  - reflexivity.
  - intros c [Heq|[Heq|[]]]; subst c; reflexivity.
Defined.

(** X18: a notification that carries no data ([null] or [undefined]) is
    closed, and then the listener throws a TypeError on reading [data.url]:
    no client is focused and no window is opened, whatever pages are open. *)
Theorem notificationclick_without_data
  (notification_data : JSValue) (matchAll : Completion (list Client))
  (openWindow : bool) (t : list PageEvent) :
  object_coercible notification_data = false ->
  exists msg,
    onnotificationclick notification_data matchAll openWindow t
    = (Throw (TypeError msg), t ++ [PgNotificationClose]).
Proof.
  intros H. unfold onnotificationclick, page_bind, page_do, page_lift.
  destruct notification_data; try discriminate; eexists; reflexivity.
Qed.

Lemma notificationclick_without_data_witness :
  exists msg,
    onnotificationclick JNull (Normal [tab_index]) true []
    = (Throw (TypeError msg), [] ++ [PgNotificationClose]).
Proof.
  apply (notificationclick_without_data JNull (Normal [tab_index]) true []).
  reflexivity.
Defined.

(** ** From the push to the click *)

Lemma notifications_app (t1 t2 : list Event) :
  notifications (t1 ++ t2) = notifications t1 ++ notifications t2.
Proof.
  induction t1 as [|ev t1 IH]; simpl; [reflexivity|].
  destruct ev; simpl; rewrite IH; reflexivity.
Qed.

Lemma onpush_shows (v : JSValue) (w : World) :
  object_coercible v = true ->
  onpush (mkPushEvent (Some (mkPushData (Some v)))) w
  = (Normal tt,
     emit (EvShowNotification (fst (push_notification v))
                              (snd (push_notification v))) w).
Proof.
  intros Hv. unfold onpush, try_catch, bind, data_json. simpl.
  destruct v; try discriminate; try reflexivity.
  simpl. unfold lift, showNotification, push_notification. simpl.
  destruct (own_property props "body") as [b|];
    destruct (own_property props "url") as [u|];
    destruct (own_property props "title") as [ti|];
    reflexivity.
Qed.

Lemma push_field_truthy (v : JSValue) (k default : string) :
  default <> ""%string -> truthy (push_field v k default) = true.
Proof.
  intros Hd.
  assert (Hdef : truthy (JString default) = true).
  { simpl. apply String.eqb_neq in Hd. rewrite Hd. reflexivity. }
  unfold push_field. destruct v; try exact Hdef.
  destruct (own_property props k) as [x|]; [|exact Hdef].
  destruct (truthy x) eqn:E; [exact E | exact Hdef].
Qed.

(** X19: from the push to the click.  A payload that parses to a value
    other than [null] makes the push listener show one notification; a
    click on that notification, when no window client shows its URL, opens
    a window at the payload's [url] when that field is present and truthy
    and at "./index.html" otherwise.  The target is never a falsy value. *)
Theorem push_then_click_opens_target
  (v : JSValue) (w : World) (clientList : list Client) (t : list PageEvent) :
  object_coercible v = true ->
  (forall c, In c clientList ->
             url_strict_eq (client_url c) (push_field v "url" DEFAULT_URL)
             && has_focus c = false) ->
  exists title options,
    notifications (trace (snd (onpush (mkPushEvent (Some (mkPushData (Some v)))) w)))
    = notifications (trace w) ++ [(title, options)] /\
    onnotificationclick (notification_data_of options) (Normal clientList) true t
    = (Normal tt,
       (t ++ [PgNotificationClose])
         ++ [PgOpenWindow (push_field v "url" DEFAULT_URL)]) /\
    truthy (push_field v "url" DEFAULT_URL) = true.
Proof.
  intros Hv Hnone.
  exists (fst (push_notification v)), (snd (push_notification v)).
  split; [|split].
  - rewrite (onpush_shows v w Hv). cbn [snd emit trace].
    rewrite notifications_app. reflexivity.
  - apply (notificationclick_opens_window_aux
             (notification_data_of (snd (push_notification v)))
             (push_field v "url" DEFAULT_URL) clientList true t);
      [reflexivity | exact Hnone].
  - apply push_field_truthy. discriminate.
Qed.

Lemma push_then_click_opens_target_witness :
  exists title options,
    notifications
      (trace (snd (onpush (mkPushEvent (Some (mkPushData (Some empty_title_payload))))
                          empty_world)))
    = notifications (trace empty_world) ++ [(title, options)] /\
    onnotificationclick (notification_data_of options)
      (Normal [tab_index; tab_stats]) true []
    = (Normal tt,
       ([] ++ [PgNotificationClose])
         ++ [PgOpenWindow (push_field empty_title_payload "url" DEFAULT_URL)]) /\
    truthy (push_field empty_title_payload "url" DEFAULT_URL) = true.
Proof.
  apply (push_then_click_opens_target empty_title_payload empty_world
           [tab_index; tab_stats] []).
  - reflexivity.
  - intros c [Heq|[Heq|[]]]; subst c; reflexivity.
Defined.
